(** * munus-moneyapp: the financial projection engine

    A shallow embedding of the two calculators held in
    [src/lib/income-calculator.ts]: the income calculator (net income and
    savings rate) and the investment calculator the tests import as
    [./calculator] (monthly-contribution compound projection and its risk
    scenarios), with the properties the specification states about them;
    and of the parts of the screens and charts that compute with their
    results (the plotted points, the income screen's derived values, the
    account handlers and the expense totals).

    Number model.  A JavaScript [number] holding a finite value is
    modelled as an exact rational ([Q]): [+], [-], [*] and division by a
    non-zero literal are the exact operations, and values are compared up
    to [Qeq].  The one division whose divisor is a run-time value is
    partial ([Number_div]): on a zero divisor the source gets an infinity
    or NaN, the model gets no value.  [years] is an integer ([Z]), as the
    loop that counts up to it and every caller treat it.  Reading a
    property of [undefined] raises a TypeError in the source; a function
    that can do so returns [option], with [None] for the throw.

    Binary64.  The source computes in binary64, where every operation is
    rounded.  The theorems are proved on the exact reading, and stated so
    that the rounded program satisfies them too below 2^53: equalities
    are stated where the binary64 operations involved are exact (whole
    amounts, a total not below the principal), and as one-unit tolerances
    or under a size condition elsewhere.  [Binary64] holds the two
    calculators on primitive floats, and Part VI runs both readings on the
    inputs that decide those restrictions.  Overflow to an infinity or
    NaN is outside both the statements and the runs. *)

From Stdlib Require Import QArith Qround Qminmax Qpower ZArith List Bool Lia Lqa.
From Stdlib Require String DecimalString.
From Stdlib Require PrimFloat FloatOps.
Import ListNotations String.StringSyntax.

Local Open Scope string_scope.
Local Open Scope Q_scope.

(** * Part I: the program *)

(** ** The pieces of the JavaScript runtime the code relies on *)

Module JS.

(** [Math.round]: the nearest integer, a tie going to the larger one. *)
Definition Math_round (x : Q) : Q := inject_Z (Qfloor (x + (1 # 2))).

(** [Math.max] of two numbers. *)
Definition Math_max (x y : Q) : Q := Qmax x y.

(** [x / y] for a divisor known only at run time. *)
Definition Number_div (x y : Q) : option Q :=
  if Qeq_bool y 0 then None else Some (x / y).

(** [a[i]]: [undefined] (here [None]) outside [0 .. a.length - 1]. *)
Definition index {A : Type} (a : list A) (i : Z) : option A :=
  if (i <? 0)%Z then None else nth_error a (Z.to_nat i).

(** [a.length] *)
Definition Array_length {A : Type} (a : list A) : Z := Z.of_nat (length a).

End JS.

Import JS.

Notation "x <- c ;; k" := (match c with Some x => k | None => None end)
  (at level 61, c at next level, right associativity).

(** ** The income calculator *)

Definition calculateNetIncome (grossIncome : Q) : Q :=
  let deductionRate := 2 # 10 in
  let deductionRate :=
    if Qle_bool 1000 grossIncome then 25 # 100
    else if Qle_bool 600 grossIncome then 22 # 100
    else deductionRate in
  Math_round (grossIncome * (1 - deductionRate)).

Definition calculateSavingsRate (grossIncome bonus monthlyExpense : Q)
  : option Q :=
  let netIncome := calculateNetIncome grossIncome in
  let annualNetIncome := netIncome + bonus in
  let annualExpense := monthlyExpense * 12 in
  let annualSavings := annualNetIncome - annualExpense in
  if Qeq_bool annualNetIncome 0 then Some 0
  else
    ratio <- Number_div annualSavings annualNetIncome ;;
    Some (Math_max 0 (Math_round (ratio * 100))).

(** ** The investment calculator *)

Record SimulationParams : Type := {
  monthlyAmount : Q;
  years : Z;
  annualReturn : Q;
  fees : option Q;
  taxRate : option Q
}.

Record YearlyData : Type := {
  year : Z;
  principal : Q;
  earnings : Q;
  total : Q;
  yearlyEarnings : Q
}.

Record SimulationResult : Type := {
  finalAmount : Q;
  totalPrincipal : Q;
  totalEarnings : Q;
  yearlyData : list YearlyData
}.

Record RiskScenario : Type := {
  optimistic : SimulationResult;
  base : SimulationResult;
  pessimistic : SimulationResult
}.

(** The destructuring defaults [fees = 0] and [taxRate = 0]. *)
Definition feesOrDefault (params : SimulationParams) : Q :=
  match fees params with Some f => f | None => 0 end.

Definition taxRateOrDefault (params : SimulationParams) : Q :=
  match taxRate params with Some t => t | None => 0 end.

(** The inner loop, [for (let month = 1; month <= 12; month++)], as a
    recursion on the number of months still to run; the body does not
    read [month]. *)
Fixpoint monthLoop (months : nat) (monthlyAmount monthlyReturn yearEndTotal : Q)
  : Q :=
  match months with
  | O => yearEndTotal
  | S rest =>
      monthLoop rest monthlyAmount monthlyReturn
        ((yearEndTotal + monthlyAmount) * (1 + monthlyReturn))
  end.

(** The variables the outer loop updates. *)
Record LoopState : Type := {
  currentPrincipal : Q;
  currentTotal : Q;
  pushed : list YearlyData
}.

Definition initialState : LoopState :=
  {| currentPrincipal := 0; currentTotal := 0; pushed := [] |}.

(** One pass through the body of the outer loop. *)
Definition yearBody (monthlyAmount monthlyReturn : Q) (year : Z) (s : LoopState)
  : LoopState :=
  let yearlyPrincipal := monthlyAmount * 12 in
  let currentPrincipal' := currentPrincipal s + yearlyPrincipal in
  let yearEndTotal := monthLoop 12 monthlyAmount monthlyReturn (currentTotal s) in
  let previousTotal := currentTotal s in
  let currentTotal' := yearEndTotal in
  let yearlyEarnings := currentTotal' - previousTotal - yearlyPrincipal in
  let totalEarnings := currentTotal' - currentPrincipal' in
  {| currentPrincipal := currentPrincipal';
     currentTotal := currentTotal';
     pushed := pushed s ++
       [ {| year := year;
            principal := Math_round currentPrincipal';
            earnings := Math_round totalEarnings;
            total := Math_round currentTotal';
            yearlyEarnings := Math_round yearlyEarnings |} ] |}.

(** The outer loop, [for (let year = 1; year <= years; year++)].  [fuel]
    bounds the number of passes; the loop leaves by its guard
    ([yearLoop_fuel_irrelevant] below: [Z.to_nat years] passes are enough). *)
Fixpoint yearLoop (fuel : nat) (years : Z) (monthlyAmount monthlyReturn : Q)
    (year : Z) (s : LoopState) : LoopState :=
  match fuel with
  | O => s
  | S rest =>
      if (year <=? years)%Z then
        yearLoop rest years monthlyAmount monthlyReturn (year + 1)
          (yearBody monthlyAmount monthlyReturn year s)
      else s
  end.

Definition calculateInvestment (params : SimulationParams)
  : option SimulationResult :=
  let monthlyAmount := monthlyAmount params in
  let years := years params in
  let annualReturn := annualReturn params in
  let fees := feesOrDefault params in
  let taxRate := taxRateOrDefault params in
  let effectiveReturn := (annualReturn - fees) / 100 in
  let monthlyReturn := effectiveReturn / 12 in
  let s :=
    yearLoop (Z.to_nat years) years monthlyAmount monthlyReturn 1 initialState in
  let yearlyData := pushed s in
  finalData <- index yearlyData (Array_length yearlyData - 1) ;;
  Some {| finalAmount := total finalData;
          totalPrincipal := principal finalData;
          totalEarnings := earnings finalData;
          yearlyData := yearlyData |}.

(** [{...params, annualReturn: r}] *)
Definition withAnnualReturn (params : SimulationParams) (r : Q)
  : SimulationParams :=
  {| monthlyAmount := monthlyAmount params;
     years := years params;
     annualReturn := r;
     fees := fees params;
     taxRate := taxRate params |}.

Definition calculateRiskScenarios (params : SimulationParams)
  : option RiskScenario :=
  let returnVariance := 2 in
  o <- calculateInvestment
         (withAnnualReturn params (annualReturn params + returnVariance)) ;;
  b <- calculateInvestment params ;;
  p <- calculateInvestment
         (withAnnualReturn params
            (Math_max 0 (annualReturn params - returnVariance))) ;;
  Some {| optimistic := o; base := b; pessimistic := p |}.

(** ** The income calculator: the remaining functions *)

Definition calculateMonthlyNetIncome (netIncome : Q) : Q :=
  Math_round ((netIncome / 12) * 10) / 10.

Definition calculateTotalIncome (grossIncome bonus years : Q) : Q :=
  let annualIncome := grossIncome + bonus in
  annualIncome * years.

Definition calculateTotalExpense (monthlyExpense years : Q) : Q :=
  monthlyExpense * 12 * years.

Definition calculateSavings (grossIncome bonus monthlyExpense years : Q) : Q :=
  let netIncome := calculateNetIncome grossIncome in
  let totalNetIncome := (netIncome + bonus) * years in
  let totalExpense := calculateTotalExpense monthlyExpense years in
  Math_max 0 (totalNetIncome - totalExpense).

Module YearlyIncomeData.

Record t : Type := {
  year : Z;
  grossIncome : Q;
  netIncome : Q;
  expense : Q;
  savings : Q
}.

End YearlyIncomeData.

(** The loop of [generateYearlyIncomeData],
    [for (let i = 1; i <= years; i++)], with the variables it updates
    ([cumulativeSavings], [data]); [fuel] bounds the number of passes. *)
Fixpoint incomeLoop (fuel : nat) (years : Z)
    (grossIncome bonus annualNetIncome annualExpense annualSavings : Q)
    (i : Z) (cumulativeSavings : Q) (data : list YearlyIncomeData.t)
  : list YearlyIncomeData.t :=
  match fuel with
  | O => data
  | S rest =>
      if (i <=? years)%Z then
        let cumulativeSavings' := cumulativeSavings + annualSavings in
        incomeLoop rest years grossIncome bonus annualNetIncome annualExpense
          annualSavings (i + 1) cumulativeSavings'
          (data ++
             [ {| YearlyIncomeData.year := i;
                  YearlyIncomeData.grossIncome := grossIncome + bonus;
                  YearlyIncomeData.netIncome := annualNetIncome;
                  YearlyIncomeData.expense := annualExpense;
                  YearlyIncomeData.savings := cumulativeSavings' |} ])
      else data
  end.

Definition generateYearlyIncomeData (grossIncome bonus monthlyExpense : Q)
    (years : Z) : list YearlyIncomeData.t :=
  let netIncome := calculateNetIncome grossIncome in
  let annualNetIncome := netIncome + bonus in
  let annualExpense := monthlyExpense * 12 in
  let annualSavings := Math_max 0 (annualNetIncome - annualExpense) in
  incomeLoop (Z.to_nat years) years grossIncome bonus annualNetIncome
    annualExpense annualSavings 1 0 [].

(** ** The preset catalogue *)

Module Preset.

Record t : Type := {
  id : String.string;
  name : String.string;
  description : String.string;
  params : SimulationParams
}.

End Preset.

Definition PRESETS : list Preset.t :=
  [ {| Preset.id := "nisa_standard";
       Preset.name := "つみたてNISA標準";
       Preset.description := "月33,333円を20年間、年利5%で運用";
       Preset.params :=
         {| monthlyAmount := 33333; years := 20; annualReturn := 5;
            fees := None; taxRate := None |} |};
    {| Preset.id := "conservative";
       Preset.name := "保守的";
       Preset.description := "月20,000円を30年間、年利3%で運用";
       Preset.params :=
         {| monthlyAmount := 20000; years := 30; annualReturn := 3;
            fees := None; taxRate := None |} |};
    {| Preset.id := "aggressive";
       Preset.name := "積極的";
       Preset.description := "月50,000円を15年間、年利7%で運用";
       Preset.params :=
         {| monthlyAmount := 50000; years := 15; annualReturn := 7;
            fees := None; taxRate := None |} |};
    {| Preset.id := "retirement";
       Preset.name := "老後準備";
       Preset.description := "月30,000円を30年間、年利5%で運用";
       Preset.params :=
         {| monthlyAmount := 30000; years := 30; annualReturn := 5;
            fees := None; taxRate := None |} |} ].

(** ** More of the runtime, for the screens and charts *)

(** [a.filter((element, index) => ...)], scanning from [index]. *)
Fixpoint Array_filter_from {A : Type} (callback : A -> Z -> bool) (index : Z)
    (a : list A) : list A :=
  match a with
  | [] => []
  | element :: rest =>
      if callback element index
      then element :: Array_filter_from callback (index + 1) rest
      else Array_filter_from callback (index + 1) rest
  end.

Definition Array_filter {A : Type} (callback : A -> Z -> bool) (a : list A)
  : list A :=
  Array_filter_from callback 0 a.

(** [a.reduce(callback, initialValue)] *)
Definition Array_reduce {A B : Type} (callback : B -> A -> B) (initialValue : B)
    (a : list A) : B :=
  fold_left callback a initialValue.

(** [x % y] on integers: the remainder with the sign of the dividend, and
    NaN ([None]) when [y] is zero. *)
Definition Number_rem (x y : Z) : option Z :=
  if (y =? 0)%Z then None else Some (Z.rem x y).

(** [x % y === 0] *)
Definition rem_is_zero (x y : Z) : bool :=
  match Number_rem x y with
  | Some 0%Z => true
  | _ => false
  end.

(** [Math.ceil] *)
Definition Math_ceil (x : Q) : Z := Qceiling x.

(** The decimal text of an integer, as a template literal prints it. *)
Definition Number_toString (z : Z) : String.string :=
  DecimalString.NilZero.string_of_int (Z.to_int z).

(** ** The investment chart ([InvestmentChart]): the points that are plotted *)

Definition sampledData (data : list YearlyData) : list YearlyData :=
  if (10 <? Array_length data)%Z then
    Array_filter
      (fun _ index =>
         (index =? 0)%Z || rem_is_zero (index + 1) 5
         || (index =? Array_length data - 1)%Z)
      data
  else data.

(** ** components/income-trend-chart.tsx: the series that are plotted *)

Module TrendSeries.

Record t : Type := {
  labels : list String.string;
  incomeData : list Q;
  expenseData : list Q;
  savingsData : list Q;
  assetsData : list Q
}.

End TrendSeries.

(** The loop [for (let year = 0; year <= years; year++)] with the arrays
    it pushes to and [cumulativeAssets]; [fuel] bounds the passes. *)
Fixpoint trendLoop (fuel : nat) (years : Z)
    (annualIncome annualExpense annualSavings : Q)
    (year : Z) (cumulativeAssets : Q) (s : TrendSeries.t) : TrendSeries.t :=
  match fuel with
  | O => s
  | S rest =>
      if (year <=? years)%Z then
        trendLoop rest years annualIncome annualExpense annualSavings
          (year + 1) (cumulativeAssets + annualSavings)
          {| TrendSeries.labels :=
               TrendSeries.labels s
               ++ [String.append (Number_toString year) "年"];
             TrendSeries.incomeData := TrendSeries.incomeData s ++ [annualIncome];
             TrendSeries.expenseData :=
               TrendSeries.expenseData s ++ [annualExpense];
             TrendSeries.savingsData :=
               TrendSeries.savingsData s ++ [annualSavings];
             TrendSeries.assetsData :=
               TrendSeries.assetsData s ++ [cumulativeAssets] |}
      else s
  end.

(** The five arrays when the loop has ended. *)
Definition trendSeries (years : Z)
    (annualIncome annualExpense annualSavings initialAssets : Q)
  : TrendSeries.t :=
  trendLoop (Z.to_nat (years + 1)) years annualIncome annualExpense
    annualSavings 0 initialAssets
    {| TrendSeries.labels := []; TrendSeries.incomeData := [];
       TrendSeries.expenseData := []; TrendSeries.savingsData := [];
       TrendSeries.assetsData := [] |}.

(** The callback every array is filtered with,
    [(_, i) => i % Math.ceil(years / 10) === 0 || i === years]. *)
Definition keepPoint {A : Type} (years : Z) (_ : A) (i : Z) : bool :=
  rem_is_zero i (Math_ceil (inject_Z years / 10)) || (i =? years)%Z.

(** The [data] object handed to the line chart. *)
Definition trendChartData (years : Z)
    (annualIncome annualExpense annualSavings initialAssets : Q)
  : TrendSeries.t :=
  let s :=
    trendSeries years annualIncome annualExpense annualSavings initialAssets in
  {| TrendSeries.labels := Array_filter (keepPoint years) (TrendSeries.labels s);
     TrendSeries.assetsData :=
       Array_filter (keepPoint years) (TrendSeries.assetsData s);
     TrendSeries.incomeData :=
       Array_filter (keepPoint years) (TrendSeries.incomeData s);
     TrendSeries.expenseData :=
       Array_filter (keepPoint years) (TrendSeries.expenseData s);
     TrendSeries.savingsData :=
       Array_filter (keepPoint years) (TrendSeries.savingsData s) |}.

(** ** components/asset-management/index.tsx *)

Module BankAccount.

Record t : Type := {
  id : String.string;
  bankName : String.string;
  currentBalance : Q;
  expectedDeposit : Q
}.

(** [Omit<BankAccount, "id">] *)
Record withoutId : Type := {
  newBankName : String.string;
  newCurrentBalance : Q;
  newExpectedDeposit : Q
}.

End BankAccount.

Definition totalBalance (accounts : list BankAccount.t) : Q :=
  Array_reduce (fun sum acc => sum + BankAccount.currentBalance acc) 0 accounts.

(** ** app/income.tsx *)

Module IncomeScreen.

(** The account handlers, as functions from the current array to the one
    handed to the state setter.  [now] is [Date.now().toString()].  The
    corporate handlers have the same text on [corporateAccounts]. *)
Definition handleAddPersonalAccount (now : String.string)
    (account : BankAccount.withoutId) (personalAccounts : list BankAccount.t)
  : list BankAccount.t :=
  let newAccount :=
    {| BankAccount.id := now;
       BankAccount.bankName := BankAccount.newBankName account;
       BankAccount.currentBalance := BankAccount.newCurrentBalance account;
       BankAccount.expectedDeposit := BankAccount.newExpectedDeposit account |} in
  personalAccounts ++ [newAccount].

Definition handleEditPersonalAccount (account : BankAccount.t)
    (personalAccounts : list BankAccount.t) : list BankAccount.t :=
  map (fun a =>
         if String.eqb (BankAccount.id a) (BankAccount.id account)
         then account else a)
    personalAccounts.

Definition handleDeletePersonalAccount (id : String.string)
    (personalAccounts : list BankAccount.t) : list BankAccount.t :=
  filter (fun a => negb (String.eqb (BankAccount.id a) id)) personalAccounts.

(** The values the screen derives from its state on every render. *)
Section Render.

Variables monthlySalary monthlyExpense bonus : Q.
Variable years : Z.
Variables personalAccounts corporateAccounts : list BankAccount.t.

Definition grossIncome : Q := monthlySalary * 12.
Definition netIncome : Q := calculateNetIncome grossIncome.
Definition monthlyNetIncome : Q := calculateMonthlyNetIncome netIncome.
Definition totalSavings : Q :=
  calculateSavings grossIncome bonus monthlyExpense (inject_Z years).
Definition savingsRate : option Q :=
  calculateSavingsRate grossIncome bonus monthlyExpense.
Definition annualNetIncome : Q := netIncome + bonus.
Definition annualExpense : Q := monthlyExpense * 12.
Definition annualSavings : Q := Math_max 0 (annualNetIncome - annualExpense).

(** The [initialAssets] prop of the trend chart. *)
Definition initialAssets : Q :=
  Array_reduce (fun sum acc => sum + BankAccount.currentBalance acc) 0
    personalAccounts
  + Array_reduce (fun sum acc => sum + BankAccount.currentBalance acc) 0
      corporateAccounts.

(** The data of [<IncomeTrendChart ... />] as the screen renders it. *)
Definition chartData : TrendSeries.t :=
  trendChartData years annualNetIncome annualExpense annualSavings
    initialAssets.

End Render.

End IncomeScreen.

(** ** app/expense.tsx *)

Module ExpenseItem.

Inductive kind : Type := monthly | annual.

Record t : Type := {
  id : String.string;
  name : String.string;
  amount : Q;
  type : kind
}.

End ExpenseItem.

Definition totalMonthlyExpense (monthlyExpenses annualExpenses : list ExpenseItem.t)
  : Q :=
  Array_reduce (fun sum item => sum + ExpenseItem.amount item) 0 monthlyExpenses
  + Array_reduce (fun sum item => sum + ExpenseItem.amount item / 12) 0
      annualExpenses.

Definition totalAnnualExpense (monthlyExpenses annualExpenses : list ExpenseItem.t)
  : Q :=
  Array_reduce (fun sum item => sum + ExpenseItem.amount item * 12) 0
    monthlyExpenses
  + Array_reduce (fun sum item => sum + ExpenseItem.amount item) 0
      annualExpenses.

(** ** The two calculators on binary64 numbers

    The same functions once more, with every [number] a binary64 float
    and every operation rounded as the processor rounds it.  Nothing in
    Parts IV and V is proved from these definitions; Part VI runs them,
    next to the exact ones, on the inputs where the rounding shows in a
    reported integer. *)

Module Binary64.

Import PrimFloat.
Local Open Scope float_scope.
Set Warnings "-inexact-float".

(** [Math.floor].  Below 2^52 in absolute value, adding and removing 2^52
    leaves one of the two neighbouring integers, and the larger one is
    stepped down; from 2^52 on every float is an integer. *)
Definition Math_floor (x : float) : float :=
  let two52 := 4503599627370496 in
  if abs x <? two52 then
    let neighbour :=
      if x <? 0 then (x - two52) + two52 else (x + two52) - two52 in
    if x <? neighbour then neighbour - 1 else neighbour
  else x.

(** [Math.round]: the integer closest to [x], a tie going to the larger
    one; a zero result keeps the sign of [x]. *)
Definition Math_round (x : float) : float :=
  let below := Math_floor x in
  let rounded := if 0.5 <=? x - below then below + 1 else below in
  if rounded =? 0 then x * 0 else rounded.

(** [Math.max] of two numbers: NaN if either is, and +0 above -0. *)
Definition Math_max (x y : float) : float :=
  if x <? y then y
  else if y <? x then x
  else if x =? y then (if x =? 0 then x + y else x)
  else nan.

Definition calculateNetIncome (grossIncome : float) : float :=
  let deductionRate := 0.2 in
  let deductionRate :=
    if 1000 <=? grossIncome then 0.25
    else if 600 <=? grossIncome then 0.22
    else deductionRate in
  Math_round (grossIncome * (1 - deductionRate)).

Definition calculateSavingsRate (grossIncome bonus monthlyExpense : float)
  : float :=
  let netIncome := calculateNetIncome grossIncome in
  let annualNetIncome := netIncome + bonus in
  let annualExpense := monthlyExpense * 12 in
  let annualSavings := annualNetIncome - annualExpense in
  if annualNetIncome =? 0 then 0
  else Math_max 0 (Math_round ((annualSavings / annualNetIncome) * 100)).

Record SimulationParams : Type := {
  monthlyAmount : float;
  years : Z;
  annualReturn : float;
  fees : option float;
  taxRate : option float
}.

Record YearlyData : Type := {
  year : Z;
  principal : float;
  earnings : float;
  total : float;
  yearlyEarnings : float
}.

Record SimulationResult : Type := {
  finalAmount : float;
  totalPrincipal : float;
  totalEarnings : float;
  yearlyData : list YearlyData
}.

Definition feesOrDefault (params : SimulationParams) : float :=
  match fees params with Some f => f | None => 0 end.

Fixpoint monthLoop (months : nat)
    (monthlyAmount monthlyReturn yearEndTotal : float) : float :=
  match months with
  | O => yearEndTotal
  | S rest =>
      monthLoop rest monthlyAmount monthlyReturn
        ((yearEndTotal + monthlyAmount) * (1 + monthlyReturn))
  end.

Record LoopState : Type := {
  currentPrincipal : float;
  currentTotal : float;
  pushed : list YearlyData
}.

Definition initialState : LoopState :=
  {| currentPrincipal := 0; currentTotal := 0; pushed := [] |}.

Definition yearBody (monthlyAmount monthlyReturn : float) (year : Z)
    (s : LoopState) : LoopState :=
  let yearlyPrincipal := monthlyAmount * 12 in
  let currentPrincipal' := currentPrincipal s + yearlyPrincipal in
  let yearEndTotal := monthLoop 12 monthlyAmount monthlyReturn (currentTotal s) in
  let previousTotal := currentTotal s in
  let currentTotal' := yearEndTotal in
  let yearlyEarnings := currentTotal' - previousTotal - yearlyPrincipal in
  let totalEarnings := currentTotal' - currentPrincipal' in
  {| currentPrincipal := currentPrincipal';
     currentTotal := currentTotal';
     pushed := pushed s ++
       [ {| year := year;
            principal := Math_round currentPrincipal';
            earnings := Math_round totalEarnings;
            total := Math_round currentTotal';
            yearlyEarnings := Math_round yearlyEarnings |} ] |}.

Fixpoint yearLoop (fuel : nat) (years : Z) (monthlyAmount monthlyReturn : float)
    (year : Z) (s : LoopState) : LoopState :=
  match fuel with
  | O => s
  | S rest =>
      if (year <=? years)%Z then
        yearLoop rest years monthlyAmount monthlyReturn (year + 1)%Z
          (yearBody monthlyAmount monthlyReturn year s)
      else s
  end.

Definition calculateInvestment (params : SimulationParams)
  : option SimulationResult :=
  let monthlyAmount := monthlyAmount params in
  let years := years params in
  let annualReturn := annualReturn params in
  let fees := feesOrDefault params in
  let effectiveReturn := (annualReturn - fees) / 100 in
  let monthlyReturn := effectiveReturn / 12 in
  let s :=
    yearLoop (Z.to_nat years) years monthlyAmount monthlyReturn 1%Z initialState in
  let yearlyData := pushed s in
  finalData <- index yearlyData (Array_length yearlyData - 1) ;;
  Some {| finalAmount := total finalData;
          totalPrincipal := principal finalData;
          totalEarnings := earnings finalData;
          yearlyData := yearlyData |}.

(** [{ monthlyAmount: m, years: y, annualReturn: a }] *)
Definition simpleParams (m : float) (y : Z) (a : float) : SimulationParams :=
  {| monthlyAmount := m; years := y; annualReturn := a;
     fees := None; taxRate := None |}.

End Binary64.

(** * Part II: definitions used to state the properties *)

(** ** The specification's wording of the income functions *)

(** The bracket table: inclusive lower bounds in descending order, the
    first bound reached decides, and a rate for amounts below every bound. *)
Definition deductionBrackets : list (Q * Q) :=
  [ (1000, 25 # 100); (600, 22 # 100) ].

Definition defaultDeduction : Q := 20 # 100.

Fixpoint firstMatchingRate (table : list (Q * Q)) (otherwise gross : Q) : Q :=
  match table with
  | [] => otherwise
  | (bound, rate) :: rest =>
      if Qle_bool bound gross then rate
      else firstMatchingRate rest otherwise gross
  end.

Definition netIncome_spec (gross : Q) : Q :=
  Math_round
    (gross * (1 - firstMatchingRate deductionBrackets defaultDeduction gross)).

(** The savings percentage before it is floored at zero and rounded,
    (annualNetIncome - annualExpense) / annualNetIncome * 100, as an exact
    value. *)
Definition savingsPercent (gross bonus monthlyExpense : Q) : Q :=
  let annualNetIncome := calculateNetIncome gross + bonus in
  let annualExpense := monthlyExpense * 12 in
  (annualNetIncome - annualExpense) / annualNetIncome * 100.

(** ** Whole amounts *)

(** A whole number: a value equal to its own floor. *)
Definition isWhole (x : Q) : bool := Qeq_bool (inject_Z (Qfloor x)) x.

(** A tie: a value halfway between two whole numbers. *)
Definition isTie (x : Q) : bool := isWhole (x + (1 # 2)).

(** ** The loop of [calculateInvestment], pass by pass *)

(** [monthlyReturn] as [calculateInvestment] computes it. *)
Definition monthlyReturnOf (params : SimulationParams) : Q :=
  (annualReturn params - feesOrDefault params) / 100 / 12.

(** The variables of the outer loop when it is given [n] passes. *)
Definition stateAfter (params : SimulationParams) (n : nat) : LoopState :=
  yearLoop n (years params) (monthlyAmount params) (monthlyReturnOf params)
    1 initialState.

(** The array [yearlyData] as it stands when the outer loop has ended. *)
Definition yearlyDataAtLoopEnd (params : SimulationParams) : list YearlyData :=
  pushed (stateAfter params (Z.to_nat (years params))).

(** The unrounded [currentPrincipal] and [currentTotal] after [n] passes,
    for a monthly amount [m] and a monthly return [r]. *)
Fixpoint principalAfter (m : Q) (n : nat) : Q :=
  match n with
  | O => 0
  | S k => principalAfter m k + m * 12
  end.

Fixpoint totalAfter (m r : Q) (n : nat) : Q :=
  match n with
  | O => 0
  | S k => monthLoop 12 m r (totalAfter m r k)
  end.

(** The record pushed by the pass with index [k], that is, for year [k + 1]. *)
Definition entryAt (m r : Q) (k : nat) : YearlyData :=
  {| year := Z.of_nat (S k);
     principal := Math_round (principalAfter m (S k));
     earnings := Math_round (totalAfter m r (S k) - principalAfter m (S k));
     total := Math_round (totalAfter m r (S k));
     yearlyEarnings :=
       Math_round (totalAfter m r (S k) - totalAfter m r k - m * 12) |}.

(** The result [calculateInvestment] builds when the loop has made [S k]
    passes. *)
Definition resultAfter (m r : Q) (k : nat) : SimulationResult :=
  {| finalAmount := total (entryAt m r k);
     totalPrincipal := principal (entryAt m r k);
     totalEarnings := earnings (entryAt m r k);
     yearlyData := map (entryAt m r) (seq 0 (S k)) |}.

(** The total recorded for the year before the entry with index [i]; 0
    before the first year. *)
Definition previousRecordedTotal (res : SimulationResult) (i : nat) : Q :=
  match i with
  | O => 0
  | S j =>
      match nth_error (yearlyData res) j with
      | Some d' => total d'
      | None => 0
      end
  end.

(** ** Concrete parameter records *)

(** [{ monthlyAmount: m, years: y, annualReturn: a }], with [fees] and
    [taxRate] left out. *)
Definition simpleParams (m : Q) (y : Z) (a : Q) : SimulationParams :=
  {| monthlyAmount := m; years := y; annualReturn := a;
     fees := None; taxRate := None |}.

(** The same with a [fees] field. *)
Definition paramsWithFees (m : Q) (y : Z) (a f : Q) : SimulationParams :=
  {| monthlyAmount := m; years := y; annualReturn := a;
     fees := Some f; taxRate := None |}.

(** The parameters of the repository's positive-return test. *)
Definition testPositiveReturn : SimulationParams := simpleParams 30000 20 5.

(** ** The loop of [generateYearlyIncomeData], pass by pass *)

(** [cumulativeSavings] after [n] passes. *)
Fixpoint cumulativeAfter (annualSavings : Q) (n : nat) : Q :=
  match n with
  | O => 0
  | S k => cumulativeAfter annualSavings k + annualSavings
  end.

(** The record pushed by the pass with index [k] (year [k + 1]). *)
Definition incomeEntryAt
    (grossIncome bonus annualNetIncome annualExpense annualSavings : Q)
    (k : nat) : YearlyIncomeData.t :=
  {| YearlyIncomeData.year := Z.of_nat (S k);
     YearlyIncomeData.grossIncome := grossIncome + bonus;
     YearlyIncomeData.netIncome := annualNetIncome;
     YearlyIncomeData.expense := annualExpense;
     YearlyIncomeData.savings := cumulativeAfter annualSavings (S k) |}.

(** ** Helpers for the statements about [calculateInvestment] *)

(** [{...params, years: y}] *)
Definition withYears (params : SimulationParams) (y : Z) : SimulationParams :=
  {| monthlyAmount := monthlyAmount params;
     years := y;
     annualReturn := annualReturn params;
     fees := fees params;
     taxRate := taxRate params |}.

(** [{...params, monthlyAmount: m}] *)
Definition withMonthlyAmount (params : SimulationParams) (m : Q)
  : SimulationParams :=
  {| monthlyAmount := m;
     years := years params;
     annualReturn := annualReturn params;
     fees := fees params;
     taxRate := taxRate params |}.

(** [1 + 2 + ... + n] *)
Fixpoint triangular (n : nat) : Q :=
  match n with
  | O => 0
  | S k => triangular k + inject_Z (Z.of_nat (S k))
  end.

(** ** Helpers for the statements about the charts and the screens *)

(** [cumulativeAssets] as pushed by the pass with index [n]. *)
Fixpoint assetsAfter (initialAssets annualSavings : Q) (n : nat) : Q :=
  match n with
  | O => initialAssets
  | S k => assetsAfter initialAssets annualSavings k + annualSavings
  end.

(** The label pushed by the pass with index [n]. *)
Definition labelAt (n : nat) : String.string :=
  String.append (Number_toString (Z.of_nat n)) "年".

(** The sum of [f] over a list. *)
Fixpoint sumOf {A : Type} (f : A -> Q) (l : list A) : Q :=
  match l with
  | [] => 0
  | x :: rest => f x + sumOf f rest
  end.

(** ** Helpers for the comparison of the two readings of the arithmetic *)

(** Between the two readings: the binary64 number a decimal literal
    denotes (the one closest to the rational), and the rational a finite
    binary64 number is. *)
Definition Number_ofZ (z : Z) : PrimFloat.float :=
  FloatOps.SF2Prim
    (SpecFloat.binary_normalize FloatOps.prec FloatOps.emax z 0 false).

Definition Number_ofQ (q : Q) : PrimFloat.float :=
  PrimFloat.div (Number_ofZ (Qnum q)) (Number_ofZ (Z.pos (Qden q))).

Definition Number_toQ (x : PrimFloat.float) : option Q :=
  match FloatOps.Prim2SF x with
  | SpecFloat.S754_zero _ => Some 0
  | SpecFloat.S754_finite negative mantissa exponent =>
      Some ((if negative then - (1) else 1)
            * inject_Z (Z.pos mantissa) * 2 ^ exponent)
  | _ => None
  end.

(** The parameters of an exact run, as binary64 numbers. *)
Definition toBinary64 (params : SimulationParams) : Binary64.SimulationParams :=
  {| Binary64.monthlyAmount := Number_ofQ (monthlyAmount params);
     Binary64.years := years params;
     Binary64.annualReturn := Number_ofQ (annualReturn params);
     Binary64.fees := option_map Number_ofQ (fees params);
     Binary64.taxRate := option_map Number_ofQ (taxRate params) |}.

(** A binary64 number and a rational that are the same number. *)
Definition sameNumber (x : PrimFloat.float) (q : Q) : bool :=
  match Number_toQ x with
  | Some v => Qeq_bool v q
  | None => false
  end.

(** The two readings of [calculateInvestment] report the same summary. *)
Definition sameSummary (res : Binary64.SimulationResult)
    (res' : SimulationResult) : bool :=
  sameNumber (Binary64.finalAmount res) (finalAmount res')
  && sameNumber (Binary64.totalPrincipal res) (totalPrincipal res')
  && sameNumber (Binary64.totalEarnings res) (totalEarnings res').

(** The same test, with the exact summary taken from the running values
    of the loop, [totalAfter] and [principalAfter]. *)
Definition summaryAgrees (params : SimulationParams) : bool :=
  let m := monthlyAmount params in
  let r := monthlyReturnOf params in
  let n := Z.to_nat (years params) in
  match Binary64.calculateInvestment (toBinary64 params) with
  | Some res =>
      (1 <=? years params)%Z
      && sameNumber (Binary64.finalAmount res) (Math_round (totalAfter m r n))
      && sameNumber (Binary64.totalPrincipal res)
           (Math_round (principalAfter m n))
      && sameNumber (Binary64.totalEarnings res)
           (Math_round (totalAfter m r n - principalAfter m n))
  | None => false
  end.

(** The projections the repository's tests run over at most ten years. *)
Definition testedParams : list SimulationParams :=
  [ simpleParams 10000 10 0;
    simpleParams 10000 5 3;
    simpleParams 10000 1 5;
    simpleParams 10000 10 10 ].

(** * Part III: lemmas *)

(** ** Rounding *)

Section Rounding.

Lemma Qfloor_between (x : Q) (k : Z) :
  inject_Z k <= x -> x < inject_Z (k + 1) -> Qfloor x = k.
Proof.
  intros Hlo Hhi.
  pose proof (Qfloor_le x) as Hf.
  pose proof (Qlt_floor x) as Hc.
  assert (inject_Z (Qfloor x) < inject_Z (k + 1)) as H1
    by (eapply Qle_lt_trans; eassumption).
  assert (inject_Z k < inject_Z (Qfloor x + 1)) as H2
    by (eapply Qle_lt_trans; eassumption).
  rewrite <- Zlt_Qlt in H1, H2. lia.
Qed.

Lemma Qfloor_shift (x : Q) (k : Z) :
  Qfloor (x + inject_Z k) = (Qfloor x + k)%Z.
Proof.
  pose proof (Qfloor_le x). pose proof (Qlt_floor x) as Hc.
  rewrite inject_Z_plus in Hc.
  apply Qfloor_between; rewrite !inject_Z_plus; lra.
Qed.

Lemma Math_round_proper (x y : Q) : x == y -> Math_round x = Math_round y.
Proof.
  intros E. unfold Math_round. f_equal. apply Qfloor_comp. rewrite E. reflexivity.
Qed.

Lemma Math_round_shift (x : Q) (k : Z) :
  Math_round (x + inject_Z k) == Math_round x + inject_Z k.
Proof.
  unfold Math_round.
  rewrite <- inject_Z_plus, <- Qfloor_shift.
  rewrite (Qfloor_comp (x + inject_Z k + (1 # 2)) (x + (1 # 2) + inject_Z k)) by ring.
  reflexivity.
Qed.

Lemma Math_round_Z (k : Z) : Math_round (inject_Z k) == inject_Z k.
Proof.
  unfold Math_round.
  rewrite (Qfloor_between (inject_Z k + (1 # 2)) k); [reflexivity | | ].
  - lra.
  - rewrite inject_Z_plus. change (inject_Z 1) with 1. lra.
Qed.

Lemma Math_round_le (x y : Q) : x <= y -> Math_round x <= Math_round y.
Proof.
  intros H. unfold Math_round. rewrite <- Zle_Qle.
  apply Qfloor_resp_le. lra.
Qed.

Lemma Math_round_lt (x y : Q) : x + 1 <= y -> Math_round x < Math_round y.
Proof.
  intros H. apply Math_round_le in H.
  change 1 with (inject_Z 1) in H. rewrite Math_round_shift in H.
  change (inject_Z 1) with 1 in H. lra.
Qed.

Lemma Math_round_bounds (x : Q) :
  x - (1 # 2) < Math_round x /\ Math_round x <= x + (1 # 2).
Proof.
  unfold Math_round.
  pose proof (Qfloor_le (x + (1 # 2))) as Hlo.
  pose proof (Qlt_floor (x + (1 # 2))) as Hhi.
  rewrite inject_Z_plus in Hhi. change (inject_Z 1) with 1 in Hhi.
  split; lra.
Qed.

Lemma isWhole_inject_Z (x : Q) :
  isWhole x = true -> x == inject_Z (Qfloor x).
Proof.
  unfold isWhole. intros H. apply Qeq_bool_iff in H. symmetry. exact H.
Qed.

Lemma isWhole_iff (x : Q) :
  isWhole x = true <-> exists z : Z, x == inject_Z z.
Proof.
  split.
  - intros H. exists (Qfloor x). apply isWhole_inject_Z, H.
  - intros [z Hz]. unfold isWhole. apply Qeq_bool_iff.
    rewrite (Qfloor_comp _ _ Hz), Qfloor_Z. symmetry. exact Hz.
Qed.

Lemma Math_round_isWhole (x : Q) : isWhole (Math_round x) = true.
Proof. apply isWhole_iff. eexists. unfold Math_round. reflexivity. Qed.

Lemma Math_round_of_whole (x : Q) : isWhole x = true -> Math_round x == x.
Proof.
  intros H. apply isWhole_inject_Z in H.
  rewrite (Math_round_proper _ _ H), Math_round_Z. symmetry. exact H.
Qed.

Lemma Math_round_minus_whole (x y : Q) :
  isWhole y = true -> Math_round (x - y) == Math_round x - y.
Proof.
  intros H. apply isWhole_inject_Z in H.
  assert (x - y == x + inject_Z (- Qfloor y)) as E
    by (rewrite inject_Z_opp, <- H; ring).
  rewrite (Math_round_proper _ _ E), Math_round_shift, inject_Z_opp, <- H.
  ring.
Qed.

(** Rounding a difference once, or rounding both ends first, differ by at
    most one unit when the subtracted constant is whole. *)
Lemma Math_round_difference_near (a b c : Q) :
  isWhole c = true ->
  - (1) <= Math_round (a - b - c) - (Math_round a - Math_round b - c) /\
  Math_round (a - b - c) - (Math_round a - Math_round b - c) <= 1.
Proof.
  intros Hc.
  rewrite (Math_round_minus_whole (a - b) c Hc).
  pose proof (Math_round_bounds a) as [Ha1 Ha2].
  pose proof (Math_round_bounds b) as [Hb1 Hb2].
  pose proof (Math_round_bounds (a - b)) as [Hd1 Hd2].
  unfold Math_round in *.
  set (za := Qfloor (a + (1 # 2))) in *.
  set (zb := Qfloor (b + (1 # 2))) in *.
  set (zd := Qfloor (a - b + (1 # 2))) in *.
  assert (inject_Z (-2) < inject_Z (zd - (za - zb)) /\
          inject_Z (zd - (za - zb)) < inject_Z 2) as [Hl Hu].
  { unfold Z.sub. repeat (rewrite inject_Z_plus || rewrite inject_Z_opp).
    change (inject_Z (-2)) with (- (2)). change (inject_Z 2) with 2.
    split; lra. }
  rewrite <- Zlt_Qlt in Hl, Hu.
  assert (inject_Z (-1) <= inject_Z (zd - (za - zb)) /\
          inject_Z (zd - (za - zb)) <= inject_Z 1) as [Hl' Hu']
    by (rewrite <- !Zle_Qle; lia).
  unfold Z.sub in Hl', Hu'.
  repeat (rewrite inject_Z_plus in Hl', Hu' || rewrite inject_Z_opp in Hl', Hu').
  change (inject_Z (-1)) with (- (1)) in Hl'. change (inject_Z 1) with 1 in Hu'.
  split; lra.
Qed.

(** The same with nothing subtracted: rounding a difference, or taking the
    difference of the rounded ends, differ by at most one unit. *)
Lemma Math_round_sub_near (a b : Q) :
  - (1) <= Math_round (a - b) - (Math_round a - Math_round b) /\
  Math_round (a - b) - (Math_round a - Math_round b) <= 1.
Proof.
  pose proof (Math_round_difference_near a b 0 eq_refl) as H.
  rewrite (Math_round_proper (a - b - 0) (a - b)) in H by ring.
  destruct H as [H1 H2]. split; lra.
Qed.



End Rounding.

(** ** The outer loop *)

Section OuterLoop.

Variable years_ : Z.
Variables m r : Q.

Let running (j : nat) (l : list YearlyData) : LoopState :=
  {| currentPrincipal := principalAfter m j;
     currentTotal := totalAfter m r j;
     pushed := l |}.

Lemma yearBody_running (j : nat) (l : list YearlyData) :
  yearBody m r (Z.of_nat (S j)) (running j l) = running (S j) (l ++ [entryAt m r j]).
Proof. reflexivity. Qed.

(** Started in year [j + 1] with [fuel] passes allowed, the loop makes as
    many passes as the fuel and the guard [year <= years] both permit. *)
Lemma yearLoop_running (fuel : nat) :
  forall (j : nat) (l : list YearlyData),
    let passes := Nat.min fuel (Z.to_nat years_ - j) in
    yearLoop fuel years_ m r (Z.of_nat (S j)) (running j l)
    = running (j + passes) (l ++ map (entryAt m r) (seq j passes)).
Proof.
  induction fuel as [| fuel IH]; intros j l passes; subst passes.
  - cbn [yearLoop Nat.min seq map]. rewrite app_nil_r, Nat.add_0_r. reflexivity.
  - cbn [yearLoop]. destruct (Z.leb_spec (Z.of_nat (S j)) years_) as [Hle | Hgt].
    + rewrite yearBody_running.
      replace (Z.of_nat (S j) + 1)%Z with (Z.of_nat (S (S j))) by lia.
      rewrite IH.
      replace (Z.to_nat years_ - j)%nat with (S (Z.to_nat years_ - S j)) by lia.
      cbn [Nat.min seq map].
      rewrite <- app_assoc, <- plus_n_Sm. reflexivity.
    + replace (Z.to_nat years_ - j)%nat with 0%nat by lia.
      rewrite Nat.min_0_r. cbn [seq map].
      rewrite app_nil_r, Nat.add_0_r. reflexivity.
Qed.

Lemma yearLoop_from_start (fuel : nat) :
  yearLoop fuel years_ m r 1 initialState
  = running (Nat.min fuel (Z.to_nat years_))
      (map (entryAt m r) (seq 0 (Nat.min fuel (Z.to_nat years_)))).
Proof.
  pose proof (yearLoop_running fuel 0 []) as H. cbv zeta in H.
  rewrite Nat.sub_0_r in H. exact H.
Qed.

(** The loop leaves by its guard: fuel beyond [Z.to_nat years] changes
    nothing. *)
Lemma yearLoop_fuel_irrelevant (extra : nat) :
  yearLoop (Z.to_nat years_ + extra) years_ m r 1 initialState
  = yearLoop (Z.to_nat years_) years_ m r 1 initialState.
Proof.
  rewrite !yearLoop_from_start.
  replace (Nat.min (Z.to_nat years_ + extra) (Z.to_nat years_))
    with (Z.to_nat years_) by lia.
  rewrite Nat.min_id. reflexivity.
Qed.

Lemma nth_error_entries (n k : nat) :
  (k < n)%nat -> nth_error (map (entryAt m r) (seq 0 n)) k = Some (entryAt m r k).
Proof.
  intros H. rewrite nth_error_map, nth_error_seq.
  destruct (Nat.ltb_spec k n) as [_ | Hge]; [reflexivity | lia].
Qed.

End OuterLoop.

Lemma stateAfter_running (params : SimulationParams) (n : nat) :
  (n <= Z.to_nat (years params))%nat ->
  currentPrincipal (stateAfter params n)
    = principalAfter (monthlyAmount params) n /\
  currentTotal (stateAfter params n)
    = totalAfter (monthlyAmount params) (monthlyReturnOf params) n.
Proof.
  intros Hn. unfold stateAfter. rewrite yearLoop_from_start.
  replace (Nat.min n (Z.to_nat (years params))) with n by lia.
  split; reflexivity.
Qed.

Lemma yearlyDataAtLoopEnd_running (params : SimulationParams) :
  yearlyDataAtLoopEnd params
  = map (entryAt (monthlyAmount params) (monthlyReturnOf params))
      (seq 0 (Z.to_nat (years params))).
Proof.
  unfold yearlyDataAtLoopEnd, stateAfter.
  rewrite yearLoop_from_start, Nat.min_id. reflexivity.
Qed.

Lemma calculateInvestment_running (params : SimulationParams) :
  calculateInvestment params =
  match Z.to_nat (years params) with
  | O => None
  | S k => Some (resultAfter (monthlyAmount params) (monthlyReturnOf params) k)
  end.
Proof.
  unfold calculateInvestment. fold (monthlyReturnOf params).
  fold (stateAfter params (Z.to_nat (years params))).
  fold (yearlyDataAtLoopEnd params).
  rewrite yearlyDataAtLoopEnd_running.
  unfold Array_length, index. rewrite length_map, length_seq.
  destruct (Z.to_nat (years params)) as [| k].
  - reflexivity.
  - destruct (Z.ltb_spec (Z.of_nat (S k) - 1) 0) as [Hneg | _]; [lia |].
    replace (Z.to_nat (Z.of_nat (S k) - 1)) with k by lia.
    rewrite nth_error_entries by lia. reflexivity.
Qed.

Lemma calculateInvestment_returns (params : SimulationParams) :
  (1 <= years params)%Z ->
  calculateInvestment params =
  Some (resultAfter (monthlyAmount params) (monthlyReturnOf params)
          (Nat.pred (Z.to_nat (years params)))).
Proof.
  intros H. rewrite calculateInvestment_running.
  destruct (Z.to_nat (years params)) as [| k] eqn:E; [lia | reflexivity].
Qed.

(** What [years >= 1] gives about the number of passes. *)
Lemma passes_of_years (y : Z) :
  (1 <= y)%Z -> Z.of_nat (S (Nat.pred (Z.to_nat y))) = y.
Proof. intros H. lia. Qed.

(** The fields of the result, in terms of the running values. *)
Lemma resultAfter_fields (m r : Q) (k : nat) :
  finalAmount (resultAfter m r k) = Math_round (totalAfter m r (S k)) /\
  totalPrincipal (resultAfter m r k) = Math_round (principalAfter m (S k)) /\
  totalEarnings (resultAfter m r k)
    = Math_round (totalAfter m r (S k) - principalAfter m (S k)).
Proof. repeat split. Qed.

Lemma yearlyData_nth (m r : Q) (k i : nat) (d : YearlyData) :
  nth_error (yearlyData (resultAfter m r k)) i = Some d ->
  (i <= k)%nat /\ d = entryAt m r i.
Proof.
  cbn [yearlyData resultAfter]. intros H.
  assert (i < S k)%nat as Hi.
  { assert (nth_error (map (entryAt m r) (seq 0 (S k))) i <> None) as Hn
      by congruence.
    apply nth_error_Some in Hn. rewrite length_map, length_seq in Hn.
    exact Hn. }
  rewrite nth_error_entries in H by exact Hi.
  split; [lia | congruence].
Qed.

Lemma previousRecordedTotal_running (m r : Q) (k i : nat) :
  (i <= k)%nat ->
  previousRecordedTotal (resultAfter m r k) i == Math_round (totalAfter m r i).
Proof.
  intros Hi. destruct i as [| j]; cbn [previousRecordedTotal].
  - reflexivity.
  - cbn [yearlyData resultAfter]. rewrite nth_error_entries by lia.
    reflexivity.
Qed.

(** The opening move of the proofs about a returned result. *)
Ltac returned_result params Hy :=
  rewrite (calculateInvestment_returns params Hy);
  eexists; split; [reflexivity |].

(** ** Arithmetic of the monthly compounding *)

Section Compounding.

Lemma monthLoop_proper (n : nat) :
  forall m m' r r' t t',
    m == m' -> r == r' -> t == t' ->
    monthLoop n m r t == monthLoop n m' r' t'.
Proof.
  induction n as [| n IH]; intros m m' r r' t t' Hm Hr Ht; cbn [monthLoop].
  - exact Ht.
  - apply IH; try assumption. rewrite Hm, Hr, Ht. reflexivity.
Qed.

Lemma totalAfter_proper (n : nat) :
  forall m m' r r', m == m' -> r == r' -> totalAfter m r n == totalAfter m' r' n.
Proof.
  induction n as [| n IH]; intros m m' r r' Hm Hr; cbn [totalAfter].
  - reflexivity.
  - apply monthLoop_proper; auto.
Qed.

Lemma principalAfter_closed (m : Q) (n : nat) :
  principalAfter m n == m * 12 * inject_Z (Z.of_nat n).
Proof.
  induction n as [| n IH]; cbn [principalAfter].
  - change (inject_Z (Z.of_nat 0)) with 0. ring.
  - rewrite IH, Nat2Z.inj_succ. unfold Z.succ. rewrite inject_Z_plus.
    change (inject_Z 1) with 1. ring.
Qed.

(** With no return the twelve steps only add the contributions. *)
Lemma monthLoop_no_return (m r : Q) (n : nat) :
  r == 0 -> forall t, monthLoop n m r t == t + inject_Z (Z.of_nat n) * m.
Proof.
  intros Hr. induction n as [| n IH]; intros t; cbn [monthLoop].
  - change (inject_Z (Z.of_nat 0)) with 0. ring.
  - rewrite IH, Nat2Z.inj_succ. unfold Z.succ. rewrite inject_Z_plus, Hr.
    change (inject_Z 1) with 1. ring.
Qed.

Lemma totalAfter_no_return (m r : Q) (n : nat) :
  r == 0 -> totalAfter m r n == principalAfter m n.
Proof.
  intros Hr. induction n as [| n IH]; cbn [totalAfter principalAfter].
  - reflexivity.
  - rewrite (monthLoop_no_return m r 12 Hr), IH.
    change (inject_Z (Z.of_nat 12)) with 12. ring.
Qed.

(** The month step is monotone in the balance and in the return, as long
    as the monthly growth factor [1 + r] is not negative. *)
Lemma monthLoop_mono (m : Q) (n : nat) :
  0 <= m ->
  forall r1 r2 t1 t2,
    0 <= 1 + r1 -> r1 <= r2 -> 0 <= t1 -> t1 <= t2 ->
    0 <= monthLoop n m r1 t1 /\ monthLoop n m r1 t1 <= monthLoop n m r2 t2.
Proof.
  intros Hm. induction n as [| n IH]; intros r1 r2 t1 t2 Hr Hrr Ht Htt;
    cbn [monthLoop].
  - split; assumption.
  - apply IH; try assumption.
    + apply Qmult_le_0_compat; lra.
    + apply Qmult_le_compat_nonneg; split; lra.
Qed.

Lemma totalAfter_mono (m : Q) (n : nat) :
  0 <= m ->
  forall r1 r2,
    0 <= 1 + r1 -> r1 <= r2 ->
    0 <= totalAfter m r1 n /\ totalAfter m r1 n <= totalAfter m r2 n.
Proof.
  intros Hm r1 r2 Hr Hrr. induction n as [| n [IH0 IH]]; cbn [totalAfter].
  - split; apply Qle_refl.
  - apply monthLoop_mono; assumption.
Qed.

(** With a return that is not negative every month adds at least the
    contribution. *)
Lemma monthLoop_grows (m r : Q) (n : nat) :
  0 <= m -> 0 <= r ->
  forall t, 0 <= t -> t + inject_Z (Z.of_nat n) * m <= monthLoop n m r t.
Proof.
  intros Hm Hr. induction n as [| n IH]; intros t Ht; cbn [monthLoop].
  - change (inject_Z (Z.of_nat 0)) with 0. lra.
  - assert (t + m <= (t + m) * (1 + r)) as Hstep.
    { assert (0 <= (t + m) * r) by (apply Qmult_le_0_compat; lra).
      lra. }
    assert (0 <= (t + m) * (1 + r)) as Hpos by lra.
    specialize (IH _ Hpos).
    rewrite Nat2Z.inj_succ. unfold Z.succ. rewrite inject_Z_plus.
    change (inject_Z 1) with 1. lra.
Qed.

Lemma totalAfter_grows (m r : Q) (n : nat) :
  0 <= m -> 0 <= r ->
  totalAfter m r n + m * 12 <= totalAfter m r (S n).
Proof.
  intros Hm Hr.
  assert (0 <= totalAfter m r n) as H0.
  { apply (totalAfter_mono m n Hm r r); lra. }
  cbn [totalAfter].
  pose proof (monthLoop_grows m r 12 Hm Hr _ H0) as H.
  change (inject_Z (Z.of_nat 12)) with 12 in H. lra.
Qed.

(** A larger monthly return widens the balance: over [n] month steps the
    gap grows by at least the simple interest, at the difference of the
    two returns, on what is held and paid in. *)
Lemma monthLoop_return_gap (m r1 r2 : Q) (n : nat) :
  0 <= m -> 0 <= r2 -> r2 <= r1 ->
  forall t1 t2,
    0 <= t2 -> t2 <= t1 ->
    monthLoop n m r2 t2 + (t1 - t2)
    + (r1 - r2) * (inject_Z (Z.of_nat n) * t2 + m * triangular n)
    <= monthLoop n m r1 t1.
Proof.
  intros Hm Hr2 Hr. induction n as [| n IH]; intros t1 t2 Ht2 Ht;
    cbn [monthLoop triangular].
  - change (inject_Z (Z.of_nat 0)) with 0. lra.
  - set (t1' := (t1 + m) * (1 + r1)). set (t2' := (t2 + m) * (1 + r2)).
    assert (t2 + m <= t2') as Hstep2.
    { unfold t2'. assert (0 <= (t2 + m) * r2) by (apply Qmult_le_0_compat; lra).
      lra. }
    assert (t1 - t2 + (r1 - r2) * (t2 + m) <= t1' - t2') as Hgap.
    { unfold t1', t2'.
      assert (0 <= (t1 - t2) * r1) by (apply Qmult_le_0_compat; lra).
      setoid_replace ((t1 + m) * (1 + r1) - (t2 + m) * (1 + r2))
        with (t1 - t2 + (r1 - r2) * (t2 + m) + (t1 - t2) * r1) by ring.
      lra. }
    assert (0 <= (r1 - r2) * (t2 + m)) as Hd
      by (apply Qmult_le_0_compat; lra).
    assert (0 <= t2') as Hpos by lra.
    assert (t2' <= t1') as Hle by lra.
    specialize (IH _ _ Hpos Hle).
    assert (0 <= inject_Z (Z.of_nat n)) as Hn.
    { change 0 with (inject_Z 0). rewrite <- Zle_Qle. lia. }
    assert (0 <= (r1 - r2) * inject_Z (Z.of_nat n) * (t2' - (t2 + m))) as Hx.
    { apply Qmult_le_0_compat; [apply Qmult_le_0_compat; [lra | assumption] | lra]. }
    rewrite (Nat2Z.inj_succ n). unfold Z.succ. rewrite inject_Z_plus.
    change (inject_Z 1) with 1.
    set (N := inject_Z (Z.of_nat n)) in *. set (T := triangular n) in *.
    apply Qle_trans with (2 := IH).
    setoid_replace ((r1 - r2) * ((N + 1) * t2 + m * (T + (N + 1))))
      with ((r1 - r2) * (t2 + m) + (r1 - r2) * (N * (t2 + m) + m * T)) by ring.
    setoid_replace ((r1 - r2) * (N * t2' + m * T))
      with ((r1 - r2) * (N * (t2 + m) + m * T)
            + (r1 - r2) * N * (t2' - (t2 + m))) by ring.
    lra.
Qed.

(** From the first year on, two returns that differ leave the totals apart
    by at least 78 * monthlyAmount times their difference. *)
Lemma totalAfter_return_gap (m r1 r2 : Q) (k : nat) :
  0 <= m -> 0 <= r2 -> r2 <= r1 ->
  totalAfter m r2 (S k) + 78 * m * (r1 - r2) <= totalAfter m r1 (S k).
Proof.
  intros Hm Hr2 Hr.
  assert (0 <= 78 * m * (r1 - r2)) as Hgap.
  { apply Qmult_le_0_compat; [apply Qmult_le_0_compat |]; lra. }
  induction k as [| k IH].
  - cbn [totalAfter].
    pose proof (monthLoop_return_gap m r1 r2 12 Hm Hr2 Hr 0 0
                  (Qle_refl 0) (Qle_refl 0)) as H.
    change (inject_Z (Z.of_nat 12)) with 12 in H.
    change (triangular 12) with
      (0 + 1 + 2 + 3 + 4 + 5 + 6 + 7 + 8 + 9 + 10 + 11 + 12) in H.
    lra.
  - assert (0 <= totalAfter m r2 (S k)) as H0.
    { apply (totalAfter_mono m (S k) Hm r2 r2); lra. }
    assert (totalAfter m r2 (S k) <= totalAfter m r1 (S k)) as Hle by lra.
    pose proof (monthLoop_return_gap m r1 r2 12 Hm Hr2 Hr _ _ H0 Hle) as H.
    change (inject_Z (Z.of_nat 12)) with 12 in H.
    change (triangular 12) with
      (0 + 1 + 2 + 3 + 4 + 5 + 6 + 7 + 8 + 9 + 10 + 11 + 12) in H.
    change (totalAfter m r1 (S (S k)))
      with (monthLoop 12 m r1 (totalAfter m r1 (S k))).
    change (totalAfter m r2 (S (S k)))
      with (monthLoop 12 m r2 (totalAfter m r2 (S k))).
    assert (0 <= (r1 - r2) * totalAfter m r2 (S k)) as Hp
      by (apply Qmult_le_0_compat; lra).
    lra.
Qed.

End Compounding.

(** ** Whole-number contributions *)

Lemma isWhole_principalAfter (m : Q) (n : nat) :
  isWhole m = true -> isWhole (principalAfter m n) = true.
Proof.
  intros H. apply isWhole_iff in H. destruct H as [z Hz].
  apply isWhole_iff. exists (z * 12 * Z.of_nat n)%Z.
  rewrite principalAfter_closed, Hz, !inject_Z_mult. reflexivity.
Qed.

Lemma isWhole_yearlyPrincipal (m : Q) :
  isWhole m = true -> isWhole (m * 12) = true.
Proof.
  intros H. apply isWhole_iff in H. destruct H as [z Hz].
  apply isWhole_iff. exists (z * 12)%Z.
  rewrite Hz, inject_Z_mult. reflexivity.
Qed.

(** ** The monthly return *)

Lemma monthlyReturnOf_scale (params : SimulationParams) :
  monthlyReturnOf params
  == (annualReturn params - feesOrDefault params) * (1 # 1200).
Proof.
  unfold monthlyReturnOf, Qdiv.
  change (/ 100) with (1 # 100). change (/ 12) with (1 # 12). ring.
Qed.

Lemma monthlyReturnOf_withAnnualReturn (params : SimulationParams) (a : Q) :
  monthlyReturnOf (withAnnualReturn params a)
  == (a - feesOrDefault params) * (1 # 1200).
Proof. rewrite monthlyReturnOf_scale. reflexivity. Qed.

(** * Part IV: the properties *)

(** ** The summary identity (C1) *)

(** C1, counterexample.  With a monthly amount of 1/25 over one year at
    10 % the total rounds up to 1 while the principal (12/25) and the
    earnings both round to 0: finalAmount is 1 and
    totalPrincipal + totalEarnings is 0. *)
Lemma summary_identity_fails_fractional_amount :
  0 < monthlyAmount (simpleParams (1 # 25) 1 10) /\
  (1 <= years (simpleParams (1 # 25) 1 10))%Z /\
  exists res,
    calculateInvestment (simpleParams (1 # 25) 1 10) = Some res /\
    finalAmount res == 1 /\ totalPrincipal res == 0 /\ totalEarnings res == 0 /\
    ~ finalAmount res == totalPrincipal res + totalEarnings res.
Proof.
  split; [reflexivity | split; [cbn; lia |]].
  eexists. split; [vm_compute; reflexivity |].
  repeat split; try reflexivity. discriminate.
Qed.

(** C1, amended.  For every SimulationParams whose monthlyAmount is a
    positive whole number, whose years is an integer >= 1 and whose
    effective return is not negative (annualReturn >= fees),
    calculateInvestment returns a result with
    finalAmount == totalPrincipal + totalEarnings.  The effective return
    is kept from being negative because the source subtracts
    currentTotal - currentPrincipal in binary64: below the principal that
    difference is rounded and the sum can be off by one
    ([Binary64_summary_off_by_one]), above it the difference is exact. *)
Theorem summary_identity_whole_amount_nonnegative_return
    (params : SimulationParams) :
  isWhole (monthlyAmount params) = true ->
  0 < monthlyAmount params ->
  (1 <= years params)%Z ->
  feesOrDefault params <= annualReturn params ->
  exists res,
    calculateInvestment params = Some res /\
    finalAmount res == totalPrincipal res + totalEarnings res.
Proof.
  intros Hint _ Hy _. returned_result params Hy.
  set (m := monthlyAmount params). set (r := monthlyReturnOf params).
  set (k := Nat.pred (Z.to_nat (years params))).
  destruct (resultAfter_fields m r k) as (-> & -> & ->).
  pose proof (isWhole_principalAfter m (S k) Hint) as HP.
  rewrite (Math_round_minus_whole _ _ HP), (Math_round_of_whole _ HP).
  ring.
Qed.

Lemma summary_identity_whole_amount_nonnegative_return_witness :
  isWhole (monthlyAmount testPositiveReturn) = true /\
  0 < monthlyAmount testPositiveReturn /\
  (1 <= years testPositiveReturn)%Z /\
  feesOrDefault testPositiveReturn <= annualReturn testPositiveReturn /\
  exists res,
    calculateInvestment testPositiveReturn = Some res /\
    finalAmount res == totalPrincipal res + totalEarnings res.
Proof.
  split; [reflexivity |].
  repeat (split; [vm_compute; first [reflexivity | discriminate] |]).
  apply (summary_identity_whole_amount_nonnegative_return testPositiveReturn);
    first [reflexivity | vm_compute; first [reflexivity | discriminate]].
Defined.

(** ** The yearly records (C2, C3) *)

(** C2, counterexample.  With a monthly amount of 3/25 over one year at
    10 % the recorded total is 2 and the recorded principal is 1, but the
    recorded earnings are 0, not 2 - 1. *)
Lemma earnings_not_difference_of_rounded_fields :
  0 < monthlyAmount (simpleParams (3 # 25) 1 10) /\
  (1 <= years (simpleParams (3 # 25) 1 10))%Z /\
  exists res d,
    calculateInvestment (simpleParams (3 # 25) 1 10) = Some res /\
    nth_error (yearlyData res) 0 = Some d /\
    total d == 2 /\ principal d == 1 /\ earnings d == 0 /\
    ~ earnings d == total d - principal d.
Proof.
  split; [reflexivity | split; [cbn; lia |]].
  eexists. eexists. split; [vm_compute; reflexivity |].
  split; [reflexivity |].
  repeat split; try reflexivity. discriminate.
Qed.

(** C2, amended.  For every SimulationParams with integer years >= 1 and
    every entry of the resulting yearlyData, the recorded earnings are
    within one unit of that entry's total minus its principal; they are
    equal to it when monthlyAmount is a positive whole number and the
    effective return is not negative (annualReturn >= fees).  The source
    rounds the running earnings, currentTotal - currentPrincipal, not the
    difference of the rounded fields: for a fractional amount the two
    differ (counterexample above), and below the principal the binary64
    subtraction itself is rounded ([Binary64_summary_off_by_one]). *)
Theorem earnings_near_total_minus_principal (params : SimulationParams) :
  (1 <= years params)%Z ->
  exists res,
    calculateInvestment params = Some res /\
    forall (i : nat) (d : YearlyData),
      nth_error (yearlyData res) i = Some d ->
      (- (1) <= earnings d - (total d - principal d) /\
       earnings d - (total d - principal d) <= 1) /\
      (isWhole (monthlyAmount params) = true ->
       0 < monthlyAmount params ->
       feesOrDefault params <= annualReturn params ->
       earnings d == total d - principal d).
Proof.
  intros Hy. returned_result params Hy.
  intros i d Hd. apply yearlyData_nth in Hd. destruct Hd as [Hi ->].
  cbn [earnings total principal entryAt]. split.
  - apply Math_round_sub_near.
  - intros Hint _ _.
    pose proof (isWhole_principalAfter _ (S i) Hint) as HP.
    rewrite (Math_round_minus_whole _ _ HP), (Math_round_of_whole _ HP).
    reflexivity.
Qed.

Lemma earnings_near_total_minus_principal_witness :
  (1 <= years testPositiveReturn)%Z /\
  exists res,
    calculateInvestment testPositiveReturn = Some res /\
    forall (i : nat) (d : YearlyData),
      nth_error (yearlyData res) i = Some d ->
      (- (1) <= earnings d - (total d - principal d) /\
       earnings d - (total d - principal d) <= 1) /\
      (isWhole (monthlyAmount testPositiveReturn) = true ->
       0 < monthlyAmount testPositiveReturn ->
       feesOrDefault testPositiveReturn <= annualReturn testPositiveReturn ->
       earnings d == total d - principal d).
Proof.
  split; [vm_compute; discriminate |].
  apply (earnings_near_total_minus_principal testPositiveReturn).
  vm_compute; discriminate.
Defined.

(** C3, counterexample.  With 10000 a month over two years at 5 % the
    recorded totals are 123300 and 252909, so the claimed expression for
    year 2 is 252909 - 123300 - 120000 = 9609; the recorded yearlyEarnings
    is 9608. *)
Lemma yearlyEarnings_not_difference_of_rounded_totals :
  0 < monthlyAmount (simpleParams 10000 2 5) /\
  (1 <= years (simpleParams 10000 2 5))%Z /\
  exists res d1 d2,
    calculateInvestment (simpleParams 10000 2 5) = Some res /\
    nth_error (yearlyData res) 0 = Some d1 /\
    nth_error (yearlyData res) 1 = Some d2 /\
    total d1 == 123300 /\ total d2 == 252909 /\
    yearlyEarnings d2 == 9608 /\
    ~ yearlyEarnings d2 == total d2 - total d1 - 10000 * 12.
Proof.
  split; [reflexivity | split; [cbn; lia |]].
  eexists. eexists. eexists. split; [vm_compute; reflexivity |].
  split; [reflexivity |]. split; [reflexivity |].
  repeat split; try reflexivity. discriminate.
Qed.

(** C3, amended.  For every SimulationParams whose monthlyAmount is a
    whole number and whose years is an integer >= 1, and every year y of
    the resulting yearlyData, the recorded yearlyEarnings is within one
    unit of the rounded total of year y minus the rounded total of year
    y-1 (0 before year 1) minus monthlyAmount * 12; for year 1, with a
    positive amount and an effective return that is not negative, it is
    equal to it.  The source rounds once, after subtracting the unrounded
    running totals, so from year 2 on the two can differ by one
    (counterexample above). *)
Theorem yearlyEarnings_near_difference_of_totals (params : SimulationParams) :
  isWhole (monthlyAmount params) = true ->
  (1 <= years params)%Z ->
  exists res,
    calculateInvestment params = Some res /\
    forall (i : nat) (d : YearlyData),
      nth_error (yearlyData res) i = Some d ->
      (- (1) <= yearlyEarnings d
                - (total d - previousRecordedTotal res i
                   - monthlyAmount params * 12) /\
       yearlyEarnings d
       - (total d - previousRecordedTotal res i - monthlyAmount params * 12)
       <= 1) /\
      (i = 0%nat ->
       0 < monthlyAmount params ->
       feesOrDefault params <= annualReturn params ->
       yearlyEarnings d == total d - monthlyAmount params * 12).
Proof.
  intros Hint Hy. returned_result params Hy.
  intros i d Hd. apply yearlyData_nth in Hd. destruct Hd as [Hi ->].
  pose proof (isWhole_yearlyPrincipal _ Hint) as HP.
  split.
  - rewrite (previousRecordedTotal_running _ _ _ _ Hi).
    cbn [yearlyEarnings total entryAt].
    apply Math_round_difference_near, HP.
  - intros -> _ _. cbn [yearlyEarnings total entryAt totalAfter].
    rewrite (Math_round_minus_whole _ _ HP).
    rewrite (Math_round_proper
               (monthLoop 12 (monthlyAmount params) (monthlyReturnOf params) 0 - 0)
               (monthLoop 12 (monthlyAmount params) (monthlyReturnOf params) 0))
      by ring.
    reflexivity.
Qed.

Lemma yearlyEarnings_near_difference_of_totals_witness :
  isWhole (monthlyAmount testPositiveReturn) = true /\
  (1 <= years testPositiveReturn)%Z /\
  exists res,
    calculateInvestment testPositiveReturn = Some res /\
    forall (i : nat) (d : YearlyData),
      nth_error (yearlyData res) i = Some d ->
      (- (1) <= yearlyEarnings d
                - (total d - previousRecordedTotal res i
                   - monthlyAmount testPositiveReturn * 12) /\
       yearlyEarnings d
       - (total d - previousRecordedTotal res i
          - monthlyAmount testPositiveReturn * 12)
       <= 1) /\
      (i = 0%nat ->
       0 < monthlyAmount testPositiveReturn ->
       feesOrDefault testPositiveReturn <= annualReturn testPositiveReturn ->
       yearlyEarnings d == total d - monthlyAmount testPositiveReturn * 12).
Proof.
  split; [reflexivity | split; [vm_compute; discriminate |]].
  apply (yearlyEarnings_near_difference_of_totals testPositiveReturn);
    [reflexivity | vm_compute; discriminate].
Defined.

(** ** Risk scenarios (C4) *)

(** C4, counterexample.  With 10000 a month over two years at an annual
    return of -5 %, the pessimistic run is made at max(0, -7) = 0 % and
    ends at 240000, above the base run's 227890. *)
Lemma pessimistic_exceeds_base_on_negative_return :
  exists sc,
    calculateRiskScenarios (simpleParams 10000 2 (- (5))) = Some sc /\
    finalAmount (base sc) == 227890 /\
    finalAmount (pessimistic sc) == 240000 /\
    ~ finalAmount (base sc) >= finalAmount (pessimistic sc).
Proof.
  eexists. split; [vm_compute; reflexivity |].
  repeat split; try reflexivity.
  intros H. apply H. reflexivity.
Qed.

(** Very large fees break the order as well, even with a return that is
    not negative: the monthly growth factor turns negative. *)
Lemma pessimistic_exceeds_base_on_huge_fees :
  exists sc,
    calculateRiskScenarios (paramsWithFees 10000 1 1 2400) = Some sc /\
    finalAmount (base sc) < finalAmount (pessimistic sc).
Proof. eexists. split; [vm_compute; reflexivity | reflexivity]. Qed.

(** C4, amended.  For every SimulationParams p with monthlyAmount >= 0,
    integer years >= 1, annualReturn >= 0 and fees <= 1200,
    calculateRiskScenarios(p) returns three independent projections,
    optimistic computed at annualReturn + 2 (unclamped), base at
    annualReturn, pessimistic at max(0, annualReturn - 2), and
    optimistic.finalAmount >= base.finalAmount >= pessimistic.finalAmount. *)
Theorem riskScenarios_ordered (p : SimulationParams) :
  0 <= monthlyAmount p ->
  (1 <= years p)%Z ->
  0 <= annualReturn p ->
  feesOrDefault p <= 1200 ->
  exists o b pe,
    calculateRiskScenarios p
      = Some {| optimistic := o; base := b; pessimistic := pe |} /\
    calculateInvestment (withAnnualReturn p (annualReturn p + 2)) = Some o /\
    calculateInvestment p = Some b /\
    calculateInvestment
      (withAnnualReturn p (Math_max 0 (annualReturn p - 2))) = Some pe /\
    finalAmount o >= finalAmount b /\
    finalAmount b >= finalAmount pe.
Proof.
  intros Hm Hy Ha Hf.
  unfold calculateRiskScenarios.
  rewrite (calculateInvestment_returns (withAnnualReturn p _) Hy).
  rewrite (calculateInvestment_returns p Hy).
  rewrite (calculateInvestment_returns (withAnnualReturn p (Math_max _ _)) Hy).
  eexists. eexists. eexists.
  split; [reflexivity |]. split; [reflexivity |].
  split; [reflexivity |]. split; [reflexivity |].
  cbn [years monthlyAmount withAnnualReturn].
  set (k := Nat.pred (Z.to_nat (years p))).
  cbn [finalAmount resultAfter total entryAt].
  assert (0 <= Math_max 0 (annualReturn p - 2)) as Hp0
    by apply Q.le_max_l.
  assert (Math_max 0 (annualReturn p - 2) <= annualReturn p) as Hpa
    by (apply Q.max_lub; lra).
  split; apply Math_round_le; apply totalAfter_mono; try exact Hm;
    rewrite ?monthlyReturnOf_withAnnualReturn, ?monthlyReturnOf_scale; lra.
Qed.

Lemma riskScenarios_ordered_witness :
  0 <= monthlyAmount testPositiveReturn /\
  (1 <= years testPositiveReturn)%Z /\
  0 <= annualReturn testPositiveReturn /\
  feesOrDefault testPositiveReturn <= 1200 /\
  exists o b pe,
    calculateRiskScenarios testPositiveReturn
      = Some {| optimistic := o; base := b; pessimistic := pe |} /\
    calculateInvestment
      (withAnnualReturn testPositiveReturn
         (annualReturn testPositiveReturn + 2)) = Some o /\
    calculateInvestment testPositiveReturn = Some b /\
    calculateInvestment
      (withAnnualReturn testPositiveReturn
         (Math_max 0 (annualReturn testPositiveReturn - 2))) = Some pe /\
    finalAmount o >= finalAmount b /\
    finalAmount b >= finalAmount pe.
Proof.
  repeat (split; [vm_compute; discriminate |]).
  apply (riskScenarios_ordered testPositiveReturn); vm_compute; discriminate.
Defined.

(** ** Zero effective return (C5) *)

(** C5, counterexample.  With a monthly amount of 1/25 over one year and
    annualReturn == fees == 0, totalPrincipal is Math.round(12/25) = 0,
    not monthlyAmount * 12 * years = 12/25. *)
Lemma zero_return_principal_fails_fractional_amount :
  0 < monthlyAmount (paramsWithFees (1 # 25) 1 0 0) /\
  (1 <= years (paramsWithFees (1 # 25) 1 0 0))%Z /\
  annualReturn (paramsWithFees (1 # 25) 1 0 0)
    == feesOrDefault (paramsWithFees (1 # 25) 1 0 0) /\
  exists res,
    calculateInvestment (paramsWithFees (1 # 25) 1 0 0) = Some res /\
    totalPrincipal res == 0 /\
    ~ totalPrincipal res == (1 # 25) * 12 * 1.
Proof.
  split; [reflexivity | split; [cbn; lia | split; [reflexivity |]]].
  eexists. split; [vm_compute; reflexivity |].
  split; [reflexivity | discriminate].
Qed.

(** C5, amended.  For every SimulationParams whose monthlyAmount is a
    whole number, with integer years >= 1 and annualReturn == fees,
    calculateInvestment yields totalEarnings == 0 and
    finalAmount == totalPrincipal == monthlyAmount * 12 * years; in
    particular project({monthlyAmount:10000, years:10, annualReturn:0})
    yields totalPrincipal == 1200000, totalEarnings == 0,
    finalAmount == 1200000.  For a fractional amount the rounded fields
    need not be monthlyAmount * 12 * years (counterexample above), nor
    need they agree with each other in binary64, where the principal is
    summed year by year and the total month by month
    ([Binary64_fractional_amount_zero_return]). *)
Theorem zero_return_keeps_whole_principal :
  (forall params : SimulationParams,
     isWhole (monthlyAmount params) = true ->
     (1 <= years params)%Z ->
     annualReturn params == feesOrDefault params ->
     exists res,
       calculateInvestment params = Some res /\
       totalEarnings res == 0 /\
       finalAmount res == totalPrincipal res /\
       totalPrincipal res
       == monthlyAmount params * 12 * inject_Z (years params)) /\
  (exists res,
     calculateInvestment (simpleParams 10000 10 0) = Some res /\
     totalPrincipal res == 1200000 /\
     totalEarnings res == 0 /\
     finalAmount res == 1200000).
Proof.
  split.
  - intros params Hint Hy Hret.
    returned_result params Hy.
    set (m := monthlyAmount params) in *. set (r := monthlyReturnOf params).
    set (k := Nat.pred (Z.to_nat (years params))).
    destruct (resultAfter_fields m r k) as (-> & -> & ->).
    assert (r == 0) as Hr.
    { unfold r. rewrite monthlyReturnOf_scale, Hret. ring. }
    pose proof (totalAfter_no_return m r (S k) Hr) as HT.
    assert (principalAfter m (S k) == m * 12 * inject_Z (years params)) as HP.
    { rewrite principalAfter_closed. unfold k.
      rewrite (passes_of_years _ Hy). reflexivity. }
    assert (totalAfter m r (S k) - principalAfter m (S k) == 0) as HE
      by (rewrite HT; ring).
    rewrite (Math_round_proper _ _ HE), (Math_round_proper _ _ HT).
    repeat split; try reflexivity.
    rewrite (Math_round_of_whole _ (isWhole_principalAfter m (S k) Hint)).
    exact HP.
  - eexists. split; [vm_compute; reflexivity |].
    repeat split; reflexivity.
Qed.

Lemma zero_return_keeps_whole_principal_witness :
  isWhole (monthlyAmount (paramsWithFees 5000 3 1 1)) = true /\
  (1 <= years (paramsWithFees 5000 3 1 1))%Z /\
  annualReturn (paramsWithFees 5000 3 1 1)
    == feesOrDefault (paramsWithFees 5000 3 1 1) /\
  exists res,
    calculateInvestment (paramsWithFees 5000 3 1 1) = Some res /\
    totalEarnings res == 0 /\
    finalAmount res == totalPrincipal res /\
    totalPrincipal res
    == monthlyAmount (paramsWithFees 5000 3 1 1) * 12
       * inject_Z (years (paramsWithFees 5000 3 1 1)).
Proof.
  split; [reflexivity |].
  split; [vm_compute; discriminate | split; [reflexivity |]].
  apply (proj1 zero_return_keeps_whole_principal (paramsWithFees 5000 3 1 1));
    [reflexivity | vm_compute; discriminate | reflexivity].
Defined.

(** ** Growth of the yearly records (C6) *)

(** C6, counterexample.  With a monthly amount of 1/100 over two years and
    no return both recorded principals, and both recorded totals, are 0. *)
Lemma yearly_growth_fails_tiny_amount :
  0 < monthlyAmount (simpleParams (1 # 100) 2 0) /\
  (1 <= years (simpleParams (1 # 100) 2 0))%Z /\
  feesOrDefault (simpleParams (1 # 100) 2 0)
    <= annualReturn (simpleParams (1 # 100) 2 0) /\
  exists res d0 d1,
    calculateInvestment (simpleParams (1 # 100) 2 0) = Some res /\
    nth_error (yearlyData res) 0 = Some d0 /\
    nth_error (yearlyData res) 1 = Some d1 /\
    ~ principal d0 < principal d1 /\ ~ total d0 < total d1.
Proof.
  split; [reflexivity | split; [cbn; lia | split; [discriminate |]]].
  eexists. eexists. eexists. split; [vm_compute; reflexivity |].
  split; [reflexivity |]. split; [reflexivity |].
  split; discriminate.
Qed.

(** C6, amended.  For every SimulationParams with monthlyAmount * 12 >= 1
    (every whole monthlyAmount > 0 qualifies), integer years >= 1 and
    annualReturn >= fees, the resulting yearlyData has exactly [years]
    entries, and for every index i > 0 the recorded principal and total
    are strictly larger than those at index i-1. *)
Theorem yearlyData_strictly_increasing (params : SimulationParams) :
  1 <= monthlyAmount params * 12 ->
  (1 <= years params)%Z ->
  feesOrDefault params <= annualReturn params ->
  exists res,
    calculateInvestment params = Some res /\
    Array_length (yearlyData res) = years params /\
    forall (i : nat) (d d' : YearlyData),
      nth_error (yearlyData res) i = Some d ->
      nth_error (yearlyData res) (S i) = Some d' ->
      principal d < principal d' /\ total d < total d'.
Proof.
  intros Hm Hy Hret.
  returned_result params Hy. split.
  - unfold Array_length. cbn [yearlyData resultAfter].
    rewrite length_map, length_seq. apply passes_of_years, Hy.
  - intros i d d' Hd Hd'.
    apply yearlyData_nth in Hd. destruct Hd as [_ ->].
    apply yearlyData_nth in Hd'. destruct Hd' as [_ ->].
    cbn [principal total entryAt].
    set (m := monthlyAmount params) in *. set (r := monthlyReturnOf params).
    assert (0 <= m) as Hm0 by lra.
    assert (0 <= r) as Hr.
    { unfold r. rewrite monthlyReturnOf_scale. lra. }
    split; apply Math_round_lt.
    + cbn [principalAfter]. lra.
    + pose proof (totalAfter_grows m r (S i) Hm0 Hr). lra.
Qed.

Lemma yearlyData_strictly_increasing_witness :
  1 <= monthlyAmount testPositiveReturn * 12 /\
  (1 <= years testPositiveReturn)%Z /\
  feesOrDefault testPositiveReturn <= annualReturn testPositiveReturn /\
  exists res,
    calculateInvestment testPositiveReturn = Some res /\
    Array_length (yearlyData res) = years testPositiveReturn /\
    forall (i : nat) (d d' : YearlyData),
      nth_error (yearlyData res) i = Some d ->
      nth_error (yearlyData res) (S i) = Some d' ->
      principal d < principal d' /\ total d < total d'.
Proof.
  split; [vm_compute; discriminate |].
  split; [vm_compute; discriminate |].
  split; [vm_compute; discriminate |].
  apply (yearlyData_strictly_increasing testPositiveReturn);
    vm_compute; discriminate.
Defined.

(** ** Fees (C7) *)

(** C7, counterexample.  With 1 a month over one year at 5 %, fees of 0
    and fees of 1 both give a finalAmount of 12: the larger fee does not
    make it strictly smaller. *)
Lemma higher_fees_can_tie :
  0 < monthlyAmount (paramsWithFees 1 1 5 0) /\
  (1 <= years (paramsWithFees 1 1 5 0))%Z /\
  0 < annualReturn (paramsWithFees 1 1 5 0)
      - feesOrDefault (paramsWithFees 1 1 5 0) /\
  0 < annualReturn (paramsWithFees 1 1 5 1)
      - feesOrDefault (paramsWithFees 1 1 5 1) /\
  feesOrDefault (paramsWithFees 1 1 5 0)
    < feesOrDefault (paramsWithFees 1 1 5 1) /\
  exists res1 res2,
    calculateInvestment (paramsWithFees 1 1 5 0) = Some res1 /\
    calculateInvestment (paramsWithFees 1 1 5 1) = Some res2 /\
    finalAmount res1 == 12 /\ finalAmount res2 == 12 /\
    ~ finalAmount res2 < finalAmount res1.
Proof.
  split; [reflexivity |]. split; [cbn; lia |].
  split; [reflexivity |]. split; [reflexivity |]. split; [reflexivity |].
  eexists. eexists. split; [vm_compute; reflexivity |].
  split; [vm_compute; reflexivity |].
  repeat split; try reflexivity. discriminate.
Qed.

(** C7, amended.  For every pair of SimulationParams that agree on
    monthlyAmount (> 0), years (integer >= 1) and annualReturn, where both
    runs have positive effective return, the second run's fees are larger
    and monthlyAmount * (fees2 - fees1) >= 100, the second run's
    finalAmount is strictly smaller than the first run's.  (Already in
    the first year the unrounded totals are then 6.5 apart; without the
    size condition the two rounded amounts can be equal, as above.) *)
Theorem higher_fees_lower_finalAmount (p1 p2 : SimulationParams) :
  monthlyAmount p1 == monthlyAmount p2 ->
  years p1 = years p2 ->
  annualReturn p1 == annualReturn p2 ->
  0 < monthlyAmount p1 ->
  (1 <= years p1)%Z ->
  feesOrDefault p1 < feesOrDefault p2 ->
  feesOrDefault p2 < annualReturn p2 ->
  100 <= monthlyAmount p1 * (feesOrDefault p2 - feesOrDefault p1) ->
  exists res1 res2,
    calculateInvestment p1 = Some res1 /\
    calculateInvestment p2 = Some res2 /\
    finalAmount res2 < finalAmount res1.
Proof.
  intros Hm Hyy Ha Hpos Hy Hf Hret Hsize.
  assert (1 <= years p2)%Z as Hy2 by (rewrite <- Hyy; exact Hy).
  rewrite (calculateInvestment_returns p1 Hy),
    (calculateInvestment_returns p2 Hy2), <- Hyy.
  eexists. eexists. split; [reflexivity |]. split; [reflexivity |].
  set (k := Nat.pred (Z.to_nat (years p1))).
  cbn [finalAmount resultAfter total entryAt].
  apply Math_round_lt.
  rewrite (totalAfter_proper (S k) _ _ (monthlyReturnOf p2) (monthlyReturnOf p2)
             (Qeq_sym _ _ Hm) (Qeq_refl _)).
  pose proof (monthlyReturnOf_scale p1) as E1.
  pose proof (monthlyReturnOf_scale p2) as E2.
  assert (0 <= monthlyReturnOf p2) as Hr2 by lra.
  assert (monthlyReturnOf p2 <= monthlyReturnOf p1) as Hr by lra.
  assert (0 <= monthlyAmount p1) as Hm0 by lra.
  pose proof (totalAfter_return_gap (monthlyAmount p1) _ _ k Hm0 Hr2 Hr) as H.
  assert (78 * monthlyAmount p1 * (monthlyReturnOf p1 - monthlyReturnOf p2)
          == (78 # 1200)
             * (monthlyAmount p1 * (feesOrDefault p2 - feesOrDefault p1))) as E.
  { rewrite E1, E2, Ha. ring. }
  rewrite E in H. lra.
Qed.

Lemma higher_fees_lower_finalAmount_witness :
  monthlyAmount (paramsWithFees 30000 20 5 0)
    == monthlyAmount (paramsWithFees 30000 20 5 1) /\
  years (paramsWithFees 30000 20 5 0) = years (paramsWithFees 30000 20 5 1) /\
  annualReturn (paramsWithFees 30000 20 5 0)
    == annualReturn (paramsWithFees 30000 20 5 1) /\
  0 < monthlyAmount (paramsWithFees 30000 20 5 0) /\
  (1 <= years (paramsWithFees 30000 20 5 0))%Z /\
  feesOrDefault (paramsWithFees 30000 20 5 0)
    < feesOrDefault (paramsWithFees 30000 20 5 1) /\
  feesOrDefault (paramsWithFees 30000 20 5 1)
    < annualReturn (paramsWithFees 30000 20 5 1) /\
  100 <= monthlyAmount (paramsWithFees 30000 20 5 0)
         * (feesOrDefault (paramsWithFees 30000 20 5 1)
            - feesOrDefault (paramsWithFees 30000 20 5 0)) /\
  exists res1 res2,
    calculateInvestment (paramsWithFees 30000 20 5 0) = Some res1 /\
    calculateInvestment (paramsWithFees 30000 20 5 1) = Some res2 /\
    finalAmount res2 < finalAmount res1.
Proof.
  repeat (split; [first [reflexivity | vm_compute; discriminate] |]).
  apply (higher_fees_lower_finalAmount
           (paramsWithFees 30000 20 5 0) (paramsWithFees 30000 20 5 1));
    first [reflexivity | vm_compute; discriminate].
Defined.

(** ** Net income (C8) *)

(** C8.  For every gross income, calculateNetIncome applies a single flat
    deduction chosen by descending threshold, first match wins (25 % for
    gross >= 1000, else 22 % for gross >= 600, otherwise 20 %), and returns
    round(gross * (1 - deductionRate)); in particular netIncome(1000) ==
    750, netIncome(600) == 468 and netIncome(500) == 400. *)
Theorem calculateNetIncome_brackets :
  (forall gross : Q, calculateNetIncome gross = netIncome_spec gross) /\
  calculateNetIncome 1000 == 750 /\
  calculateNetIncome 600 == 468 /\
  calculateNetIncome 500 == 400.
Proof.
  split; [| repeat split; reflexivity].
  intros gross. unfold calculateNetIncome, netIncome_spec.
  cbn [firstMatchingRate deductionBrackets].
  destruct (Qle_bool 1000 gross); [reflexivity |].
  destruct (Qle_bool 600 gross); [reflexivity |].
  apply Math_round_proper. unfold defaultDeduction.
  setoid_replace (2 # 10) with (20 # 100) by reflexivity. reflexivity.
Qed.

(** ** Savings rate (C9) *)


(** ** The final-element access (C10) *)

(** C10.  calculateInvestment reads yearlyData[yearlyData.length - 1] with
    no emptiness check.  When years is an integer >= 1 the loop makes
    [years] passes (at least one), yearlyData is non-empty, the access is
    in bounds and the result is built from that element; when years < 1
    the guard fails at once, the loop makes no pass, yearlyData is empty,
    the access yields no value and nothing stands in for it: reading the
    fields of the missing element throws. *)
Theorem final_element_access (params : SimulationParams) :
  ((1 <= years params)%Z ->
   Array_length (yearlyDataAtLoopEnd params) = years params /\
   yearlyDataAtLoopEnd params <> [] /\
   exists finalData res,
     index (yearlyDataAtLoopEnd params)
       (Array_length (yearlyDataAtLoopEnd params) - 1) = Some finalData /\
     calculateInvestment params = Some res /\
     finalAmount res = total finalData /\
     totalPrincipal res = principal finalData /\
     totalEarnings res = earnings finalData /\
     yearlyData res = yearlyDataAtLoopEnd params) /\
  ((years params < 1)%Z ->
   (forall fuel : nat, stateAfter params fuel = initialState) /\
   yearlyDataAtLoopEnd params = [] /\
   index (yearlyDataAtLoopEnd params)
     (Array_length (yearlyDataAtLoopEnd params) - 1) = None /\
   calculateInvestment params = None).
Proof.
  rewrite calculateInvestment_running, yearlyDataAtLoopEnd_running.
  unfold Array_length. rewrite length_map, length_seq.
  split; intros Hy.
  - destruct (Z.to_nat (years params)) as [| k] eqn:E; [lia |].
    split; [lia |]. split; [discriminate |].
    exists (entryAt (monthlyAmount params) (monthlyReturnOf params) k).
    eexists. unfold index.
    destruct (Z.ltb_spec (Z.of_nat (S k) - 1) 0) as [Hneg | _]; [lia |].
    replace (Z.to_nat (Z.of_nat (S k) - 1)) with k by lia.
    rewrite nth_error_entries by lia.
    repeat split.
  - split.
    + intros fuel. unfold stateAfter. rewrite yearLoop_from_start.
      replace (Z.to_nat (years params)) with 0%nat by lia.
      rewrite Nat.min_0_r. reflexivity.
    + replace (Z.to_nat (years params)) with 0%nat by lia.
      repeat split.
Qed.

Lemma final_element_access_witness :
  ((1 <= years testPositiveReturn)%Z /\
   Array_length (yearlyDataAtLoopEnd testPositiveReturn)
     = years testPositiveReturn /\
   yearlyDataAtLoopEnd testPositiveReturn <> []) /\
  ((years (simpleParams 30000 0 5) < 1)%Z /\
   yearlyDataAtLoopEnd (simpleParams 30000 0 5) = [] /\
   calculateInvestment (simpleParams 30000 0 5) = None).
Proof.
  split.
  - split; [vm_compute; discriminate |].
    destruct (proj1 (final_element_access testPositiveReturn))
      as (Hlen & Hne & _); [vm_compute; discriminate |].
    split; assumption.
  - split; [reflexivity |].
    destruct (proj2 (final_element_access (simpleParams 30000 0 5)))
      as (_ & Hnil & _ & Hnone); [reflexivity |].
    split; assumption.
Defined.

(** * Part V: further properties of the code *)

(** ** The income calculator *)

Lemma Qmax_0_scale (d y : Q) :
  0 <= y -> Qmax 0 (d * y) == Qmax 0 d * y.
Proof.
  intros Hy. destruct (Qlt_le_dec d 0) as [Hd | Hd].
  - rewrite (Q.max_l 0 d) by lra.
    rewrite Q.max_l; [ring |].
    assert (0 <= (- d) * y) by (apply Qmult_le_0_compat; lra). lra.
  - rewrite (Q.max_r 0 d) by lra.
    rewrite Q.max_r; [reflexivity | apply Qmult_le_0_compat; lra].
Qed.

(** The deduction from a gross income that is not negative lies between
    20 % and 25 %: the net income is at least the rounded 75 % and at most
    the rounded 80 % of the gross income. *)
Theorem calculateNetIncome_between (grossIncome : Q) :
  0 <= grossIncome ->
  Math_round (grossIncome * (75 # 100)) <= calculateNetIncome grossIncome /\
  calculateNetIncome grossIncome <= Math_round (grossIncome * (80 # 100)).
Proof.
  intros Hg. unfold calculateNetIncome.
  destruct (Qle_bool 1000 grossIncome); [| destruct (Qle_bool 600 grossIncome)];
    split; apply Math_round_le; lra.
Qed.

Lemma calculateNetIncome_between_witness :
  0 <= 600 /\
  Math_round (600 * (75 # 100)) <= calculateNetIncome 600 /\
  calculateNetIncome 600 <= Math_round (600 * (80 # 100)).
Proof.
  split; [discriminate |].
  apply (calculateNetIncome_between 600). discriminate.
Defined.

(** The monthly net income is a number of tenths, and it is within one
    twentieth of a twelfth of the yearly net income. *)
Theorem calculateMonthlyNetIncome_one_decimal (netIncome : Q) :
  isWhole (calculateMonthlyNetIncome netIncome * 10) = true /\
  netIncome / 12 - (1 # 20) < calculateMonthlyNetIncome netIncome /\
  calculateMonthlyNetIncome netIncome <= netIncome / 12 + (1 # 20).
Proof.
  unfold calculateMonthlyNetIncome.
  pose proof (Math_round_bounds (netIncome / 12 * 10)) as [Hlo Hhi].
  set (R := Math_round (netIncome / 12 * 10)) in *.
  assert (R / 10 * 10 == R) as E by (field; discriminate).
  split.
  - apply isWhole_iff. exists (Qfloor (netIncome / 12 * 10 + (1 # 2))).
    rewrite E. reflexivity.
  - unfold Qdiv in *. change (/ 10) with (1 # 10) in *.
    change (/ 12) with (1 # 12) in *. split; lra.
Qed.

(** With a positive annual net income and a monthly expense that is not
    negative, the savings rate is a whole percentage between 0 and 100,
    and it is 0 as soon as the yearly expense reaches the net income. *)
Theorem calculateSavingsRate_percentage (grossIncome bonus monthlyExpense : Q) :
  0 < calculateNetIncome grossIncome + bonus ->
  0 <= monthlyExpense ->
  exists rate,
    calculateSavingsRate grossIncome bonus monthlyExpense = Some rate /\
    0 <= rate /\ rate <= 100 /\ isWhole rate = true /\
    (calculateNetIncome grossIncome + bonus <= monthlyExpense * 12 ->
     rate == 0).
Proof.
  intros Hpos He.
  unfold calculateSavingsRate, Number_div.
  set (ani := calculateNetIncome grossIncome + bonus) in *.
  assert (Qeq_bool ani 0 = false) as Hnz.
  { destruct (Qeq_bool ani 0) eqn:E; [| reflexivity].
    apply Qeq_bool_iff in E. lra. }
  rewrite Hnz. eexists. split; [reflexivity |].
  set (ratio := (ani - monthlyExpense * 12) / ani).
  assert (ratio <= 1) as Hr1.
  { unfold ratio. apply Qle_shift_div_r; [exact Hpos | lra]. }
  split; [apply Q.le_max_l |]. split; [| split].
  - apply Q.max_lub; [discriminate |].
    apply Qle_trans with (Math_round 100);
      [apply Math_round_le; lra | vm_compute; discriminate].
  - unfold Math_max.
    destruct (Q.max_spec 0 (Math_round (ratio * 100))) as [[_ E] | [_ E]];
      apply isWhole_iff.
    + eexists. rewrite E. unfold Math_round. reflexivity.
    + exists 0%Z. rewrite E. reflexivity.
  - intros Hexp.
    assert (ratio <= 0) as Hr0.
    { unfold ratio. apply Qle_shift_div_r; [exact Hpos | lra]. }
    unfold Math_max. apply Q.max_l.
    apply Qle_trans with (Math_round 0);
      [apply Math_round_le; lra | vm_compute; discriminate].
Qed.

Lemma calculateSavingsRate_percentage_witness :
  0 < calculateNetIncome 360 + 80 /\
  0 <= 20 /\
  exists rate,
    calculateSavingsRate 360 80 20 = Some rate /\
    0 <= rate /\ rate <= 100 /\ isWhole rate = true /\
    (calculateNetIncome 360 + 80 <= 20 * 12 -> rate == 0).
Proof.
  split; [reflexivity | split; [discriminate |]].
  apply (calculateSavingsRate_percentage 360 80 20);
    [reflexivity | discriminate].
Defined.

Lemma calculateSavings_scale (grossIncome bonus monthlyExpense years : Q) :
  0 <= years ->
  calculateSavings grossIncome bonus monthlyExpense years
  == Math_max 0 (calculateNetIncome grossIncome + bonus - monthlyExpense * 12)
     * years.
Proof.
  intros Hy. unfold calculateSavings, calculateTotalExpense, Math_max.
  rewrite <- Qmax_0_scale by exact Hy.
  apply Q.max_compat; [reflexivity | ring].
Qed.

(** Over a number of years that is not negative, the savings are the
    yearly surplus, floored at zero, times the years; so they are never
    negative, and they are zero when a year's expenses reach its net
    income. *)
Theorem calculateSavings_yearly_surplus
    (grossIncome bonus monthlyExpense years : Q) :
  0 <= years ->
  calculateSavings grossIncome bonus monthlyExpense years
  == Math_max 0 (calculateNetIncome grossIncome + bonus - monthlyExpense * 12)
     * years /\
  0 <= calculateSavings grossIncome bonus monthlyExpense years /\
  (calculateNetIncome grossIncome + bonus <= monthlyExpense * 12 ->
   calculateSavings grossIncome bonus monthlyExpense years == 0).
Proof.
  intros Hy. split; [apply calculateSavings_scale, Hy |].
  split; [apply Q.le_max_l |].
  intros Hexp. rewrite calculateSavings_scale by exact Hy.
  unfold Math_max. rewrite Q.max_l by lra. ring.
Qed.

Lemma calculateSavings_yearly_surplus_witness :
  0 <= 10 /\
  calculateSavings 360 80 20 10
  == Math_max 0 (calculateNetIncome 360 + 80 - 20 * 12) * 10.
Proof.
  split; [discriminate |].
  apply (calculateSavings_yearly_surplus 360 80 20 10). discriminate.
Defined.

(** ** The yearly income series *)

Section IncomeLoop.

Variable years_ : Z.
Variables g b ani exp sav : Q.

Lemma incomeLoop_running (fuel : nat) :
  forall (j : nat) (data : list YearlyIncomeData.t),
    incomeLoop fuel years_ g b ani exp sav (Z.of_nat (S j))
      (cumulativeAfter sav j) data
    = data ++ map (incomeEntryAt g b ani exp sav)
                (seq j (Nat.min fuel (Z.to_nat years_ - j))).
Proof.
  induction fuel as [| fuel IH]; intros j data.
  - cbn [incomeLoop Nat.min seq map]. rewrite app_nil_r. reflexivity.
  - cbn [incomeLoop].
    destruct (Z.leb_spec (Z.of_nat (S j)) years_) as [Hle | Hgt].
    + replace (Z.of_nat (S j) + 1)%Z with (Z.of_nat (S (S j))) by lia.
      change (cumulativeAfter sav j + sav) with (cumulativeAfter sav (S j)).
      rewrite IH.
      replace (Z.to_nat years_ - j)%nat with (S (Z.to_nat years_ - S j)) by lia.
      cbn [Nat.min seq map]. rewrite <- app_assoc. reflexivity.
    + replace (Z.to_nat years_ - j)%nat with 0%nat by lia.
      rewrite Nat.min_0_r. cbn [seq map]. rewrite app_nil_r. reflexivity.
Qed.

End IncomeLoop.

Lemma cumulativeAfter_closed (sav : Q) (n : nat) :
  cumulativeAfter sav n == inject_Z (Z.of_nat n) * sav.
Proof.
  induction n as [| n IH]; cbn [cumulativeAfter].
  - change (inject_Z (Z.of_nat 0)) with 0. ring.
  - rewrite IH, Nat2Z.inj_succ. unfold Z.succ. rewrite inject_Z_plus.
    change (inject_Z 1) with 1. ring.
Qed.

Lemma generateYearlyIncomeData_running (g b e : Q) (years_ : Z) :
  generateYearlyIncomeData g b e years_
  = map (incomeEntryAt g b (calculateNetIncome g + b) (e * 12)
           (Math_max 0 (calculateNetIncome g + b - e * 12)))
      (seq 0 (Z.to_nat years_)).
Proof.
  unfold generateYearlyIncomeData.
  rewrite (incomeLoop_running years_ g b _ _ _ (Z.to_nat years_) 0 []).
  rewrite Nat.sub_0_r, Nat.min_id. reflexivity.
Qed.

Lemma generateYearlyIncomeData_nth (g b e : Q) (years_ : Z) (i : nat)
    (d : YearlyIncomeData.t) :
  nth_error (generateYearlyIncomeData g b e years_) i = Some d ->
  (i < Z.to_nat years_)%nat /\
  d = incomeEntryAt g b (calculateNetIncome g + b) (e * 12)
        (Math_max 0 (calculateNetIncome g + b - e * 12)) i.
Proof.
  rewrite generateYearlyIncomeData_running. intros H.
  assert (i < Z.to_nat years_)%nat as Hi.
  { assert (nth_error
              (map (incomeEntryAt g b (calculateNetIncome g + b) (e * 12)
                      (Math_max 0 (calculateNetIncome g + b - e * 12)))
                 (seq 0 (Z.to_nat years_))) i <> None) as Hn by congruence.
    apply nth_error_Some in Hn. rewrite length_map, length_seq in Hn.
    exact Hn. }
  rewrite nth_error_map, nth_error_seq in H.
  destruct (Nat.ltb_spec i (Z.to_nat years_)) as [_ | Hge]; [| lia].
  cbn in H. split; [exact Hi | congruence].
Qed.

(** generateYearlyIncomeData returns one record per year, numbered from 1
    (none when years < 1); every record repeats the same gross income,
    net income and expense, and the record of year y holds y times the
    yearly surplus floored at zero as its savings. *)
Theorem generateYearlyIncomeData_records (g b e : Q) (years_ : Z) :
  Array_length (generateYearlyIncomeData g b e years_) = Z.max 0 years_ /\
  forall (i : nat) (d : YearlyIncomeData.t),
    nth_error (generateYearlyIncomeData g b e years_) i = Some d ->
    YearlyIncomeData.year d = (Z.of_nat i + 1)%Z /\
    YearlyIncomeData.grossIncome d = g + b /\
    YearlyIncomeData.netIncome d = calculateNetIncome g + b /\
    YearlyIncomeData.expense d = e * 12 /\
    YearlyIncomeData.savings d
    == inject_Z (Z.of_nat i + 1)
       * Math_max 0 (calculateNetIncome g + b - e * 12).
Proof.
  split.
  - rewrite generateYearlyIncomeData_running. unfold Array_length.
    rewrite length_map, length_seq. lia.
  - intros i d Hd. apply generateYearlyIncomeData_nth in Hd.
    destruct Hd as [_ ->]. cbn [incomeEntryAt YearlyIncomeData.year
      YearlyIncomeData.grossIncome YearlyIncomeData.netIncome
      YearlyIncomeData.expense YearlyIncomeData.savings].
    split; [lia |]. repeat split.
    rewrite cumulativeAfter_closed.
    replace (Z.of_nat (S i)) with (Z.of_nat i + 1)%Z by lia. reflexivity.
Qed.

(** Along the series the cumulative savings are never negative and never
    decrease from one year to the next, whatever the income and expense. *)
Theorem generateYearlyIncomeData_savings_grow (g b e : Q) (years_ : Z) :
  forall (i : nat) (d d' : YearlyIncomeData.t),
    nth_error (generateYearlyIncomeData g b e years_) i = Some d ->
    nth_error (generateYearlyIncomeData g b e years_) (S i) = Some d' ->
    0 <= YearlyIncomeData.savings d /\
    YearlyIncomeData.savings d <= YearlyIncomeData.savings d'.
Proof.
  intros i d d' Hd Hd'.
  apply generateYearlyIncomeData_nth in Hd. destruct Hd as [_ ->].
  apply generateYearlyIncomeData_nth in Hd'. destruct Hd' as [_ ->].
  cbn [incomeEntryAt YearlyIncomeData.savings].
  set (sav := Math_max 0 (calculateNetIncome g + b - e * 12)).
  assert (0 <= sav) as Hs by apply Q.le_max_l.
  assert (0 <= cumulativeAfter sav (S i)) as H0.
  { rewrite cumulativeAfter_closed.
    apply Qmult_le_0_compat; [| exact Hs].
    change 0 with (inject_Z 0). rewrite <- Zle_Qle. lia. }
  split; [exact H0 |]. cbn [cumulativeAfter] in *. lra.
Qed.

Lemma generateYearlyIncomeData_savings_grow_witness :
  exists d d',
    nth_error (generateYearlyIncomeData 360 80 40 3) 0 = Some d /\
    nth_error (generateYearlyIncomeData 360 80 40 3) 1 = Some d' /\
    0 <= YearlyIncomeData.savings d /\
    YearlyIncomeData.savings d <= YearlyIncomeData.savings d'.
Proof.
  eexists. eexists. split; [reflexivity |]. split; [reflexivity |].
  apply (generateYearlyIncomeData_savings_grow 360 80 40 3 0);
    reflexivity.
Defined.

(** The savings recorded for year y are what calculateSavings gives for a
    period of y years: the series and the total agree. *)
Theorem generateYearlyIncomeData_agrees_with_calculateSavings
    (g b e : Q) (years_ : Z) :
  forall (i : nat) (d : YearlyIncomeData.t),
    nth_error (generateYearlyIncomeData g b e years_) i = Some d ->
    YearlyIncomeData.savings d
    == calculateSavings g b e (inject_Z (YearlyIncomeData.year d)).
Proof.
  intros i d Hd. apply generateYearlyIncomeData_nth in Hd.
  destruct Hd as [_ ->].
  cbn [incomeEntryAt YearlyIncomeData.year YearlyIncomeData.savings].
  assert (0 <= inject_Z (Z.of_nat (S i))) as Hpos.
  { change 0 with (inject_Z 0). rewrite <- Zle_Qle. lia. }
  rewrite (calculateSavings_scale g b e _ Hpos), cumulativeAfter_closed.
  ring.
Qed.

Lemma generateYearlyIncomeData_agrees_with_calculateSavings_witness :
  exists d,
    nth_error (generateYearlyIncomeData 360 80 20 10) 9 = Some d /\
    YearlyIncomeData.savings d
    == calculateSavings 360 80 20 (inject_Z (YearlyIncomeData.year d)).
Proof.
  eexists. split; [reflexivity |].
  apply (generateYearlyIncomeData_agrees_with_calculateSavings
           360 80 20 10 9).
  reflexivity.
Defined.

(** ** The projection: closed form *)

Lemma Qpower_succ_nat (q : Q) (n : nat) :
  q ^ Z.of_nat (S n) == q * q ^ Z.of_nat n.
Proof.
  rewrite Nat2Z.inj_succ. unfold Z.succ.
  rewrite Qpower_plus' by lia. rewrite Qpower_1_r. ring.
Qed.

Lemma Qpower_add_nat (q : Q) (a b : nat) :
  q ^ Z.of_nat (a + b) == q ^ Z.of_nat a * q ^ Z.of_nat b.
Proof.
  induction a as [| a IH].
  - cbn [Nat.add]. change (q ^ Z.of_nat 0) with 1. ring.
  - change (S a + b)%nat with (S (a + b)).
    rewrite !Qpower_succ_nat, IH. ring.
Qed.

(** [n] month steps, multiplied by the monthly return. *)
Lemma monthLoop_geometric (m r : Q) (n : nat) :
  forall t,
    r * monthLoop n m r t
    == r * t * (1 + r) ^ Z.of_nat n
       + m * (1 + r) * ((1 + r) ^ Z.of_nat n - 1).
Proof.
  induction n as [| n IH]; intros t; cbn [monthLoop].
  - change ((1 + r) ^ Z.of_nat 0) with 1. ring.
  - rewrite IH, Qpower_succ_nat. ring.
Qed.

Lemma totalAfter_geometric (m r : Q) (n : nat) :
  r * totalAfter m r n
  == m * (1 + r) * ((1 + r) ^ Z.of_nat (12 * n) - 1).
Proof.
  induction n as [| n IH]; cbn [totalAfter].
  - change ((1 + r) ^ Z.of_nat (12 * 0)) with 1. ring.
  - rewrite monthLoop_geometric.
    replace (12 * S n)%nat with (12 * n + 12)%nat by lia.
    rewrite Qpower_add_nat.
    rewrite IH. ring.
Qed.

(** The unrounded total is the future value of an annuity paid at the
    start of every month, monthlyAmount * (1 + r) * ((1 + r)^(12 * n) - 1)
    / r after n years, with r the monthly return. *)
Lemma totalAfter_annuity_due (m r : Q) (n : nat) :
  ~ r == 0 ->
  totalAfter m r n == m * (1 + r) * ((1 + r) ^ Z.of_nat (12 * n) - 1) / r.
Proof.
  intros Hr. rewrite <- totalAfter_geometric. field. exact Hr.
Qed.

(** Within the ranges of the simulator's sliders, and beyond them (a
    monthlyAmount of at most 500000, at most 50 years, an effective return
    of at most 10 % either way and not zero), finalAmount is within one
    unit of the future value of an annuity paid at the start of every
    month: monthlyAmount * (1 + r) * ((1 + r)^(12 * years) - 1) / r, with
    r = (annualReturn - fees) / 100 / 12.  One unit, not half a unit: the
    12 * years rounded steps of the binary64 loop can end on the other
    side of a tie ([Binary64_annuity_near_tie]). *)
Theorem finalAmount_annuity_due (params : SimulationParams) :
  0 < monthlyAmount params ->
  monthlyAmount params <= 500000 ->
  (1 <= years params)%Z ->
  (years params <= 50)%Z ->
  ~ annualReturn params == feesOrDefault params ->
  - (10) <= annualReturn params - feesOrDefault params ->
  annualReturn params - feesOrDefault params <= 10 ->
  exists res,
    calculateInvestment params = Some res /\
    monthlyAmount params * (1 + monthlyReturnOf params)
    * ((1 + monthlyReturnOf params) ^ (12 * years params) - 1)
    / monthlyReturnOf params - 1
    <= finalAmount res /\
    finalAmount res
    <= monthlyAmount params * (1 + monthlyReturnOf params)
       * ((1 + monthlyReturnOf params) ^ (12 * years params) - 1)
       / monthlyReturnOf params + 1.
Proof.
  intros _ _ Hy _ Hne _ _. returned_result params Hy.
  set (m := monthlyAmount params). set (r := monthlyReturnOf params).
  set (k := Nat.pred (Z.to_nat (years params))).
  destruct (resultAfter_fields m r k) as (-> & _ & _).
  assert (~ r == 0) as Hr.
  { unfold r. rewrite monthlyReturnOf_scale. intros E. apply Hne. lra. }
  replace (12 * years params)%Z with (Z.of_nat (12 * S k)) by (unfold k; lia).
  rewrite <- (totalAfter_annuity_due m r (S k) Hr).
  pose proof (Math_round_bounds (totalAfter m r (S k))) as [Hlo Hhi].
  split; lra.
Qed.

Lemma finalAmount_annuity_due_witness :
  0 < monthlyAmount testPositiveReturn /\
  monthlyAmount testPositiveReturn <= 500000 /\
  (1 <= years testPositiveReturn)%Z /\
  (years testPositiveReturn <= 50)%Z /\
  ~ annualReturn testPositiveReturn == feesOrDefault testPositiveReturn /\
  - (10) <= annualReturn testPositiveReturn
            - feesOrDefault testPositiveReturn /\
  annualReturn testPositiveReturn - feesOrDefault testPositiveReturn <= 10 /\
  exists res,
    calculateInvestment testPositiveReturn = Some res /\
    monthlyAmount testPositiveReturn
    * (1 + monthlyReturnOf testPositiveReturn)
    * ((1 + monthlyReturnOf testPositiveReturn)
       ^ (12 * years testPositiveReturn) - 1)
    / monthlyReturnOf testPositiveReturn - 1
    <= finalAmount res /\
    finalAmount res
    <= monthlyAmount testPositiveReturn
       * (1 + monthlyReturnOf testPositiveReturn)
       * ((1 + monthlyReturnOf testPositiveReturn)
          ^ (12 * years testPositiveReturn) - 1)
       / monthlyReturnOf testPositiveReturn + 1.
Proof.
  repeat (split; [vm_compute; first [reflexivity | discriminate] |]).
  apply (finalAmount_annuity_due testPositiveReturn);
    vm_compute; first [reflexivity | discriminate].
Defined.

(** ** The projection: principal, gains and losses *)

Lemma principalAfter_le_totalAfter (m r : Q) (n : nat) :
  0 <= m -> 0 <= r -> principalAfter m n <= totalAfter m r n.
Proof.
  intros Hm Hr. induction n as [| n IH].
  - apply Qle_refl.
  - pose proof (totalAfter_grows m r n Hm Hr). cbn [principalAfter]. lra.
Qed.

(** With a monthly factor between 0 and 1 the month steps add at most the
    contributions. *)
Lemma monthLoop_shrinks (m r : Q) (n : nat) :
  0 <= m -> 0 <= 1 + r -> r <= 0 ->
  forall t, 0 <= t ->
    0 <= monthLoop n m r t /\
    monthLoop n m r t <= t + inject_Z (Z.of_nat n) * m.
Proof.
  intros Hm Hr0 Hr1. induction n as [| n IH]; intros t Ht; cbn [monthLoop].
  - change (inject_Z (Z.of_nat 0)) with 0. split; lra.
  - assert (0 <= (t + m) * (1 + r)) as Hpos
      by (apply Qmult_le_0_compat; lra).
    assert ((t + m) * (1 + r) <= t + m) as Hstep.
    { assert (0 <= (t + m) * (- r)) by (apply Qmult_le_0_compat; lra).
      lra. }
    destruct (IH _ Hpos) as [H0 H1].
    rewrite Nat2Z.inj_succ. unfold Z.succ. rewrite inject_Z_plus.
    change (inject_Z 1) with 1. split; lra.
Qed.

Lemma totalAfter_le_principalAfter (m r : Q) (n : nat) :
  0 <= m -> 0 <= 1 + r -> r <= 0 ->
  0 <= totalAfter m r n /\ totalAfter m r n <= principalAfter m n.
Proof.
  intros Hm Hr0 Hr1. induction n as [| n [IH0 IH]];
    cbn [totalAfter principalAfter].
  - split; apply Qle_refl.
  - destruct (monthLoop_shrinks m r 12 Hm Hr0 Hr1 _ IH0) as [H0 H1].
    change (inject_Z (Z.of_nat 12)) with 12 in H1. split; lra.
Qed.

(** Twelve month steps earn at least the simple interest on the year's
    contributions. *)
Lemma monthLoop_simple_interest (m r : Q) (n : nat) :
  0 <= m -> 0 <= r ->
  forall t, 0 <= t ->
    t + inject_Z (Z.of_nat n) * m
    + r * (inject_Z (Z.of_nat n) * t + m * triangular n)
    <= monthLoop n m r t.
Proof.
  intros Hm Hr. induction n as [| n IH]; intros t Ht; cbn [monthLoop triangular].
  - change (inject_Z (Z.of_nat 0)) with 0. lra.
  - set (t' := (t + m) * (1 + r)).
    assert (t + m <= t') as Hstep.
    { unfold t'. assert (0 <= (t + m) * r) by (apply Qmult_le_0_compat; lra).
      lra. }
    assert (0 <= t') as Hpos by lra.
    specialize (IH _ Hpos).
    assert (0 <= inject_Z (Z.of_nat n)) as Hn.
    { change 0 with (inject_Z 0). rewrite <- Zle_Qle. lia. }
    assert (0 <= r * inject_Z (Z.of_nat n) * (t' - (t + m))) as Hx.
    { apply Qmult_le_0_compat; [apply Qmult_le_0_compat; assumption | lra]. }
    assert (t' == t + m + r * (t + m)) as Et by (unfold t'; ring).
    rewrite (Nat2Z.inj_succ n). unfold Z.succ. rewrite inject_Z_plus.
    change (inject_Z 1) with 1.
    set (N := inject_Z (Z.of_nat n)) in *. set (T := triangular n) in *.
    apply Qle_trans with (2 := IH).
    setoid_replace (t + (N + 1) * m + r * ((N + 1) * t + m * (T + (N + 1))))
      with (t + m + r * (t + m) + N * m
            + r * (N * (t + m) + m * T)) by ring.
    setoid_replace (r * (N * t' + m * T))
      with (r * (N * (t + m) + m * T) + r * N * (t' - (t + m))) by ring.
    lra.
Qed.

Lemma totalAfter_simple_interest (m r : Q) (k : nat) :
  0 <= m -> 0 <= r ->
  principalAfter m (S k) + 78 * m * r <= totalAfter m r (S k).
Proof.
  intros Hm Hr. induction k as [| k IH].
  - cbn [totalAfter principalAfter].
    pose proof (monthLoop_simple_interest m r 12 Hm Hr 0 (Qle_refl 0)) as H.
    change (inject_Z (Z.of_nat 12)) with 12 in H.
    change (triangular 12) with
      (0 + 1 + 2 + 3 + 4 + 5 + 6 + 7 + 8 + 9 + 10 + 11 + 12) in H.
    lra.
  - pose proof (totalAfter_grows m r (S k) Hm Hr) as Hg.
    change (principalAfter m (S (S k))) with (principalAfter m (S k) + m * 12).
    lra.
Qed.

(** For a whole monthlyAmount and integer years >= 1, whatever the return
    and the fees, totalPrincipal is monthlyAmount * 12 * years, and the
    record with index i is the one of year i + 1, with principal
    monthlyAmount * 12 * (i + 1). *)
Theorem principal_of_whole_amount (params : SimulationParams) :
  isWhole (monthlyAmount params) = true ->
  (1 <= years params)%Z ->
  exists res,
    calculateInvestment params = Some res /\
    totalPrincipal res == monthlyAmount params * 12 * inject_Z (years params) /\
    forall (i : nat) (d : YearlyData),
      nth_error (yearlyData res) i = Some d ->
      year d = (Z.of_nat i + 1)%Z /\
      principal d == monthlyAmount params * 12 * inject_Z (Z.of_nat i + 1).
Proof.
  intros Hint Hy. returned_result params Hy.
  set (m := monthlyAmount params) in *. set (r := monthlyReturnOf params).
  set (k := Nat.pred (Z.to_nat (years params))).
  assert (forall n, Math_round (principalAfter m n)
                    == m * 12 * inject_Z (Z.of_nat n)) as HP.
  { intros n.
    rewrite (Math_round_of_whole _ (isWhole_principalAfter m n Hint)).
    apply principalAfter_closed. }
  split.
  - destruct (resultAfter_fields m r k) as (_ & -> & _).
    rewrite HP. unfold k. rewrite (passes_of_years _ Hy). reflexivity.
  - intros i d Hd. apply yearlyData_nth in Hd. destruct Hd as [_ ->].
    cbn [year principal entryAt]. split; [lia |].
    rewrite HP. replace (Z.of_nat (S i)) with (Z.of_nat i + 1)%Z by lia.
    reflexivity.
Qed.

Lemma principal_of_whole_amount_witness :
  isWhole (monthlyAmount testPositiveReturn) = true /\
  (1 <= years testPositiveReturn)%Z /\
  exists res,
    calculateInvestment testPositiveReturn = Some res /\
    totalPrincipal res
    == monthlyAmount testPositiveReturn * 12
       * inject_Z (years testPositiveReturn).
Proof.
  split; [reflexivity | split; [vm_compute; discriminate |]].
  destruct (principal_of_whole_amount testPositiveReturn)
    as (res & Hres & HP & _); [reflexivity | vm_compute; discriminate |].
  exists res. split; assumption.
Defined.

(** With a whole monthlyAmount and an effective return that are not
    negative, the projection never ends below what was paid in:
    finalAmount >= totalPrincipal and totalEarnings >= 0.  (The amount is
    whole so that the yearly sum of the principal and the monthly sum of
    the total are the same number in binary64 too.) *)
Theorem nonnegative_return_never_loses (params : SimulationParams) :
  isWhole (monthlyAmount params) = true ->
  0 <= monthlyAmount params ->
  (1 <= years params)%Z ->
  feesOrDefault params <= annualReturn params ->
  exists res,
    calculateInvestment params = Some res /\
    totalPrincipal res <= finalAmount res /\
    0 <= totalEarnings res.
Proof.
  intros _ Hm Hy Hret. returned_result params Hy.
  set (m := monthlyAmount params) in *. set (r := monthlyReturnOf params).
  set (k := Nat.pred (Z.to_nat (years params))).
  destruct (resultAfter_fields m r k) as (-> & -> & ->).
  assert (0 <= r) as Hr by (unfold r; rewrite monthlyReturnOf_scale; lra).
  pose proof (principalAfter_le_totalAfter m r (S k) Hm Hr) as H.
  split; [apply Math_round_le, H |].
  apply Qle_trans with (Math_round 0); [vm_compute; discriminate |].
  apply Math_round_le. lra.
Qed.

Lemma nonnegative_return_never_loses_witness :
  isWhole (monthlyAmount testPositiveReturn) = true /\
  0 <= monthlyAmount testPositiveReturn /\
  (1 <= years testPositiveReturn)%Z /\
  feesOrDefault testPositiveReturn <= annualReturn testPositiveReturn /\
  exists res,
    calculateInvestment testPositiveReturn = Some res /\
    totalPrincipal res <= finalAmount res /\
    0 <= totalEarnings res.
Proof.
  split; [reflexivity |].
  repeat (split; [vm_compute; discriminate |]).
  apply (nonnegative_return_never_loses testPositiveReturn);
    first [reflexivity | vm_compute; discriminate].
Defined.

(** With a whole monthlyAmount that is not negative and an effective
    return between -1200 % and 0 %, the projection never ends above what
    was paid in: finalAmount <= totalPrincipal and totalEarnings <= 0. *)
Theorem nonpositive_return_never_gains (params : SimulationParams) :
  isWhole (monthlyAmount params) = true ->
  0 <= monthlyAmount params ->
  (1 <= years params)%Z ->
  annualReturn params <= feesOrDefault params ->
  feesOrDefault params <= annualReturn params + 1200 ->
  exists res,
    calculateInvestment params = Some res /\
    finalAmount res <= totalPrincipal res /\
    totalEarnings res <= 0.
Proof.
  intros _ Hm Hy Hret Hfloor. returned_result params Hy.
  set (m := monthlyAmount params) in *. set (r := monthlyReturnOf params).
  set (k := Nat.pred (Z.to_nat (years params))).
  destruct (resultAfter_fields m r k) as (-> & -> & ->).
  assert (r <= 0) as Hr1 by (unfold r; rewrite monthlyReturnOf_scale; lra).
  assert (0 <= 1 + r) as Hr0 by (unfold r; rewrite monthlyReturnOf_scale; lra).
  destruct (totalAfter_le_principalAfter m r (S k) Hm Hr0 Hr1) as [_ H].
  split; [apply Math_round_le, H |].
  apply Qle_trans with (Math_round 0); [| vm_compute; discriminate].
  apply Math_round_le. lra.
Qed.

Lemma nonpositive_return_never_gains_witness :
  isWhole (monthlyAmount (paramsWithFees 10000 10 1 3)) = true /\
  0 <= monthlyAmount (paramsWithFees 10000 10 1 3) /\
  (1 <= years (paramsWithFees 10000 10 1 3))%Z /\
  annualReturn (paramsWithFees 10000 10 1 3)
    <= feesOrDefault (paramsWithFees 10000 10 1 3) /\
  feesOrDefault (paramsWithFees 10000 10 1 3)
    <= annualReturn (paramsWithFees 10000 10 1 3) + 1200 /\
  exists res,
    calculateInvestment (paramsWithFees 10000 10 1 3) = Some res /\
    finalAmount res <= totalPrincipal res /\
    totalEarnings res <= 0.
Proof.
  split; [reflexivity |].
  repeat (split; [vm_compute; discriminate |]).
  apply (nonpositive_return_never_gains (paramsWithFees 10000 10 1 3));
    first [reflexivity | vm_compute; discriminate].
Defined.

(** The gain is strict as soon as the first year's simple interest,
    78 * monthlyAmount * monthlyReturn, reaches one unit. *)
Lemma strict_gain_running (m r : Q) (k : nat) :
  0 <= m -> 0 <= r -> 1 <= 78 * m * r ->
  Math_round (principalAfter m (S k)) < Math_round (totalAfter m r (S k)) /\
  1 <= Math_round (totalAfter m r (S k) - principalAfter m (S k)).
Proof.
  intros Hm Hr Hgain.
  pose proof (totalAfter_simple_interest m r k Hm Hr) as H.
  split; [apply Math_round_lt; lra |].
  apply Qle_trans with (Math_round 1); [vm_compute; discriminate |].
  apply Math_round_le. lra.
Qed.

(** When 78 * monthlyAmount * monthlyReturn >= 1 (for instance 5000 a
    month at an effective return of 0.5 % or more), the projection ends
    strictly above what was paid in: finalAmount > totalPrincipal and
    totalEarnings >= 1. *)
Theorem positive_return_gains (params : SimulationParams) :
  0 <= monthlyAmount params ->
  (1 <= years params)%Z ->
  1 <= 78 * monthlyAmount params * monthlyReturnOf params ->
  exists res,
    calculateInvestment params = Some res /\
    totalPrincipal res < finalAmount res /\
    1 <= totalEarnings res.
Proof.
  intros Hm Hy Hgain. returned_result params Hy.
  set (m := monthlyAmount params) in *. set (r := monthlyReturnOf params) in *.
  set (k := Nat.pred (Z.to_nat (years params))).
  destruct (resultAfter_fields m r k) as (-> & -> & ->).
  apply strict_gain_running; try assumption.
  destruct (Qlt_le_dec r 0) as [Hneg | Hpos]; [| exact Hpos].
  assert (0 <= 78 * m * (- r)) by (apply Qmult_le_0_compat; lra). lra.
Qed.

Lemma positive_return_gains_witness :
  0 <= monthlyAmount testPositiveReturn /\
  (1 <= years testPositiveReturn)%Z /\
  1 <= 78 * monthlyAmount testPositiveReturn
       * monthlyReturnOf testPositiveReturn /\
  exists res,
    calculateInvestment testPositiveReturn = Some res /\
    totalPrincipal res < finalAmount res /\
    1 <= totalEarnings res.
Proof.
  split; [vm_compute; discriminate |].
  split; [vm_compute; discriminate |].
  split; [vm_compute; discriminate |].
  apply (positive_return_gains testPositiveReturn);
    vm_compute; discriminate.
Defined.

(** ** The preset catalogue *)

Lemma whole_amount_projection (params : SimulationParams) :
  isWhole (monthlyAmount params) = true ->
  0 <= monthlyAmount params ->
  (1 <= years params)%Z ->
  1 <= 78 * monthlyAmount params * monthlyReturnOf params ->
  exists res,
    calculateInvestment params = Some res /\
    totalPrincipal res == monthlyAmount params * 12 * inject_Z (years params) /\
    totalPrincipal res < finalAmount res.
Proof.
  intros Hint Hm Hy Hgain. returned_result params Hy.
  set (m := monthlyAmount params) in *. set (r := monthlyReturnOf params) in *.
  set (k := Nat.pred (Z.to_nat (years params))).
  destruct (resultAfter_fields m r k) as (-> & -> & _).
  split.
  - rewrite (Math_round_of_whole _ (isWhole_principalAfter m (S k) Hint)).
    rewrite principalAfter_closed. unfold k.
    rewrite (passes_of_years _ Hy). reflexivity.
  - apply strict_gain_running; try assumption.
    destruct (Qlt_le_dec r 0) as [Hneg | Hpos]; [| exact Hpos].
    assert (0 <= 78 * m * (- r)) by (apply Qmult_le_0_compat; lra). lra.
Qed.

(** The catalogue holds the four presets nisa_standard, conservative,
    aggressive and retirement; each has a positive monthlyAmount, positive
    years and an annualReturn between 0 and 10, and its projection has
    totalPrincipal == monthlyAmount * 12 * years and finalAmount >
    totalPrincipal. *)
Theorem PRESETS_project_with_gain :
  map Preset.id PRESETS
  = ["nisa_standard"; "conservative"; "aggressive"; "retirement"] /\
  Forall
    (fun preset =>
       0 < monthlyAmount (Preset.params preset) /\
       (0 < years (Preset.params preset))%Z /\
       0 <= annualReturn (Preset.params preset) /\
       annualReturn (Preset.params preset) <= 10 /\
       exists res,
         calculateInvestment (Preset.params preset) = Some res /\
         totalPrincipal res
         == monthlyAmount (Preset.params preset) * 12
            * inject_Z (years (Preset.params preset)) /\
         totalPrincipal res < finalAmount res)
    PRESETS.
Proof.
  split; [reflexivity |].
  unfold PRESETS.
  repeat (apply Forall_cons || apply Forall_nil);
    (split; [reflexivity |]); (split; [reflexivity |]);
    (split; [vm_compute; discriminate |]);
    (split; [vm_compute; discriminate |]);
    apply whole_amount_projection;
    first [reflexivity | vm_compute; discriminate].
Qed.

(** ** The projection: more money, more years *)

Lemma monthLoop_mono_amount (r : Q) (n : nat) :
  0 <= 1 + r ->
  forall m1 m2 t1 t2,
    0 <= m1 -> m1 <= m2 -> 0 <= t1 -> t1 <= t2 ->
    0 <= monthLoop n m1 r t1 /\ monthLoop n m1 r t1 <= monthLoop n m2 r t2.
Proof.
  intros Hr. induction n as [| n IH]; intros m1 m2 t1 t2 Hm Hmm Ht Htt;
    cbn [monthLoop].
  - split; assumption.
  - apply IH; try assumption.
    + apply Qmult_le_0_compat; lra.
    + apply Qmult_le_compat_r; lra.
Qed.

Lemma totalAfter_mono_amount (r : Q) (n : nat) :
  0 <= 1 + r ->
  forall m1 m2,
    0 <= m1 -> m1 <= m2 ->
    0 <= totalAfter m1 r n /\ totalAfter m1 r n <= totalAfter m2 r n.
Proof.
  intros Hr m1 m2 Hm Hmm. induction n as [| n [IH0 IH]]; cbn [totalAfter].
  - split; apply Qle_refl.
  - apply monthLoop_mono_amount; assumption.
Qed.

Lemma principalAfter_mono_amount (n : nat) (m1 m2 : Q) :
  m1 <= m2 -> principalAfter m1 n <= principalAfter m2 n.
Proof.
  intros H. induction n as [| n IH]; cbn [principalAfter]; lra.
Qed.

(** Raising monthlyAmount, all else fixed, never lowers finalAmount or
    totalPrincipal, as long as the amounts are not negative and the
    effective return is at least -1200 %. *)
Theorem larger_amount_never_lowers_result (params : SimulationParams) (m2 : Q) :
  0 <= monthlyAmount params ->
  monthlyAmount params <= m2 ->
  (1 <= years params)%Z ->
  feesOrDefault params <= annualReturn params + 1200 ->
  exists res1 res2,
    calculateInvestment params = Some res1 /\
    calculateInvestment (withMonthlyAmount params m2) = Some res2 /\
    finalAmount res1 <= finalAmount res2 /\
    totalPrincipal res1 <= totalPrincipal res2.
Proof.
  intros Hm Hmm Hy Hfloor.
  rewrite (calculateInvestment_returns params Hy).
  rewrite (calculateInvestment_returns (withMonthlyAmount params m2) Hy).
  eexists. eexists. split; [reflexivity |]. split; [reflexivity |].
  cbn [years monthlyAmount withMonthlyAmount].
  change (monthlyReturnOf (withMonthlyAmount params m2))
    with (monthlyReturnOf params).
  set (k := Nat.pred (Z.to_nat (years params))).
  cbn [finalAmount totalPrincipal resultAfter total principal entryAt].
  assert (0 <= 1 + monthlyReturnOf params) as Hr
    by (rewrite monthlyReturnOf_scale; lra).
  split; apply Math_round_le.
  - apply totalAfter_mono_amount; assumption.
  - apply principalAfter_mono_amount, Hmm.
Qed.

Lemma larger_amount_never_lowers_result_witness :
  0 <= monthlyAmount testPositiveReturn /\
  monthlyAmount testPositiveReturn <= 35000 /\
  (1 <= years testPositiveReturn)%Z /\
  feesOrDefault testPositiveReturn <= annualReturn testPositiveReturn + 1200 /\
  exists res1 res2,
    calculateInvestment testPositiveReturn = Some res1 /\
    calculateInvestment (withMonthlyAmount testPositiveReturn 35000)
      = Some res2 /\
    finalAmount res1 <= finalAmount res2 /\
    totalPrincipal res1 <= totalPrincipal res2.
Proof.
  repeat (split; [vm_compute; discriminate |]).
  apply (larger_amount_never_lowers_result testPositiveReturn 35000);
    vm_compute; discriminate.
Defined.

Lemma firstn_seq_le (n : nat) :
  forall start len, (n <= len)%nat -> firstn n (seq start len) = seq start n.
Proof.
  induction n as [| n IH]; intros start len Hle.
  - reflexivity.
  - destruct len as [| len]; [lia |].
    cbn [seq firstn]. f_equal. apply IH. lia.
Qed.

(** A longer horizon only adds years: the yearlyData of a run over
    [years] years is the first [years] records of the run over any larger
    number of years with the same other parameters. *)
Theorem longer_horizon_extends_yearlyData (params : SimulationParams) (y : Z) :
  (1 <= years params)%Z ->
  (years params <= y)%Z ->
  exists res1 res2,
    calculateInvestment params = Some res1 /\
    calculateInvestment (withYears params y) = Some res2 /\
    yearlyData res1 = firstn (Z.to_nat (years params)) (yearlyData res2).
Proof.
  intros Hy Hle.
  assert (1 <= years (withYears params y))%Z as Hy2 by (cbn; lia).
  rewrite (calculateInvestment_returns params Hy).
  rewrite (calculateInvestment_returns (withYears params y) Hy2).
  eexists. eexists. split; [reflexivity |]. split; [reflexivity |].
  cbn [years monthlyAmount withYears yearlyData resultAfter].
  change (monthlyReturnOf (withYears params y)) with (monthlyReturnOf params).
  rewrite firstn_map, firstn_seq_le by lia.
  replace (S (Nat.pred (Z.to_nat (years params))))
    with (Z.to_nat (years params)) by lia.
  reflexivity.
Qed.

Lemma longer_horizon_extends_yearlyData_witness :
  (1 <= years (simpleParams 30000 3 5))%Z /\
  (years (simpleParams 30000 3 5) <= 5)%Z /\
  exists res1 res2,
    calculateInvestment (simpleParams 30000 3 5) = Some res1 /\
    calculateInvestment (withYears (simpleParams 30000 3 5) 5) = Some res2 /\
    yearlyData res1
    = firstn (Z.to_nat (years (simpleParams 30000 3 5))) (yearlyData res2).
Proof.
  split; [vm_compute; discriminate | split; [vm_compute; discriminate |]].
  apply (longer_horizon_extends_yearlyData (simpleParams 30000 3 5) 5);
    vm_compute; discriminate.
Defined.

(** calculateRiskScenarios throws exactly when years < 1, whatever the
    return: the three runs share [years], and the first one already reads
    the missing last element. *)
Theorem calculateRiskScenarios_throws_iff (params : SimulationParams) :
  calculateRiskScenarios params = None <-> (years params < 1)%Z.
Proof.
  unfold calculateRiskScenarios. split.
  - intros H. destruct (Z.lt_ge_cases (years params) 1) as [Hlt | Hge];
      [exact Hlt |].
    rewrite (calculateInvestment_returns (withAnnualReturn params _) Hge) in H.
    rewrite (calculateInvestment_returns params Hge) in H.
    rewrite (calculateInvestment_returns
               (withAnnualReturn params (Math_max _ _)) Hge) in H.
    discriminate.
  - intros Hlt. rewrite calculateInvestment_running.
    cbn [years withAnnualReturn].
    replace (Z.to_nat (years params)) with 0%nat by lia. reflexivity.
Qed.

(** ** Filtering by index *)

Section FilterByIndex.

Context {A : Type}.
Variable callback : A -> Z -> bool.

Lemma Array_filter_from_app (a a' : list A) :
  forall index,
    Array_filter_from callback index (a ++ a')
    = Array_filter_from callback index a
      ++ Array_filter_from callback (index + Z.of_nat (length a)) a'.
Proof.
  induction a as [| x a IH]; intros index.
  - cbn [app Array_filter_from length]. f_equal. lia.
  - cbn [app Array_filter_from length]. rewrite IH.
    replace (index + 1 + Z.of_nat (length a))%Z
      with (index + Z.of_nat (S (length a)))%Z by lia.
    destruct (callback x index); reflexivity.
Qed.

Lemma In_Array_filter_from (x : A) (a : list A) :
  forall index,
    In x (Array_filter_from callback index a) <->
    exists i, nth_error a i = Some x /\
              callback x (index + Z.of_nat i) = true.
Proof.
  induction a as [| y a IH]; intros index; cbn [Array_filter_from].
  - split; [intros [] | intros [[| i] [H _]]; discriminate].
  - split.
    + intros H.
      assert (In x (Array_filter_from callback (index + 1) a) ->
              exists i, nth_error (y :: a) i = Some x /\
                        callback x (index + Z.of_nat i) = true) as Hrest.
      { intros Hin. apply IH in Hin. destruct Hin as (i & Hi & Hc).
        exists (S i). split; [exact Hi |].
        replace (index + Z.of_nat (S i))%Z with (index + 1 + Z.of_nat i)%Z
          by lia. exact Hc. }
      destruct (callback y index) eqn:E; [| exact (Hrest H)].
      destruct H as [Hyx | H]; [| exact (Hrest H)].
      subst y. exists 0%nat. split; [reflexivity |].
      replace (index + Z.of_nat 0)%Z with index by lia. exact E.
    + intros ([| i] & Hi & Hc).
      * cbn in Hi. injection Hi as ->.
        replace (index + Z.of_nat 0)%Z with index in Hc by lia.
        rewrite Hc. left; reflexivity.
      * assert (In x (Array_filter_from callback (index + 1) a)) as Hin.
        { apply IH. exists i. split; [exact Hi |].
          replace (index + 1 + Z.of_nat i)%Z with (index + Z.of_nat (S i))%Z
            by lia. exact Hc. }
        destruct (callback y index); [right |]; exact Hin.
Qed.

Lemma Array_filter_from_all (a : list A) :
  forall index,
    (forall i x, nth_error a i = Some x ->
                 callback x (index + Z.of_nat i) = true) ->
    Array_filter_from callback index a = a.
Proof.
  induction a as [| y a IH]; intros index H; cbn [Array_filter_from].
  - reflexivity.
  - pose proof (H 0%nat y eq_refl) as H0.
    replace (index + Z.of_nat 0)%Z with index in H0 by lia. rewrite H0.
    f_equal. apply IH. intros i x Hi.
    replace (index + 1 + Z.of_nat i)%Z with (index + Z.of_nat (S i))%Z by lia.
    apply (H (S i)). exact Hi.
Qed.

Lemma Array_filter_from_length_le (a : list A) :
  forall index,
    (length (Array_filter_from callback index a) <= length a)%nat.
Proof.
  induction a as [| y a IH]; intros index; cbn [Array_filter_from length].
  - lia.
  - specialize (IH (index + 1)%Z).
    destruct (callback y index); cbn [length]; lia.
Qed.

End FilterByIndex.

(** A callback that looks at the index only keeps the same positions in
    arrays of the same length. *)
Lemma Array_filter_from_index_only {A B : Type} (keep : Z -> bool)
    (a : list A) :
  forall (b : list B) index,
    length a = length b ->
    length (Array_filter_from (fun _ i => keep i) index a)
    = length (Array_filter_from (fun _ i => keep i) index b).
Proof.
  induction a as [| x a IH]; intros [| y b] index Hlen;
    try discriminate; cbn [Array_filter_from].
  - reflexivity.
  - injection Hlen as Hlen. specialize (IH b (index + 1)%Z Hlen).
    destruct (keep index); cbn [length]; lia.
Qed.

(** ** The points of the investment chart *)

Lemma rem_is_zero_5 (x : Z) :
  (0 <= x)%Z -> rem_is_zero x 5 = true <-> (x mod 5 = 0)%Z.
Proof.
  intros Hx. unfold rem_is_zero, Number_rem. cbn [Z.eqb].
  rewrite Z.rem_mod_nonneg by lia.
  destruct (x mod 5)%Z; split; intros H; try reflexivity; discriminate.
Qed.

Lemma sampled_count {A : Type} (c : Z) (a : list A) :
  forall s,
    (0 <= s)%Z ->
    (Z.of_nat
       (length
          (Array_filter_from
             (fun (_ : A) index =>
                (index =? 0)%Z || rem_is_zero (index + 1) 5 || (index =? c)%Z)
             s a))
     <= ((s + Z.of_nat (length a)) / 5 - s / 5)
        + (if (s =? 0)%Z then 1 else 0)
        + (if (s <=? c)%Z then 1 else 0))%Z.
Proof.
  induction a as [| x a IH]; intros s Hs; cbn [Array_filter_from length].
  - destruct (s =? 0)%Z, (s <=? c)%Z;
      replace (s + Z.of_nat 0)%Z with s by lia; lia.
  - assert (0 <= s + 1)%Z as Hs1 by lia.
    specialize (IH (s + 1)%Z Hs1).
    pose proof (rem_is_zero_5 (s + 1) Hs1) as Hrem.
    replace (s + Z.of_nat (S (length a)))%Z
      with (s + 1 + Z.of_nat (length a))%Z by lia.
    destruct (Z.eqb_spec (s + 1) 0) as [E1 | E1]; [lia |].
    destruct (Z.eqb_spec s 0) as [E0 | E0];
      destruct (Z.eqb_spec s c) as [Ec | Ec];
      destruct (Z.leb_spec s c) as [Lc | Lc];
      destruct (Z.leb_spec (s + 1) c) as [Lc1 | Lc1];
      destruct (rem_is_zero (s + 1) 5) eqn:Er;
      cbn [orb length];
      try (assert ((s + 1) mod 5 = 0)%Z by (apply Hrem; reflexivity));
      try (assert ((s + 1) mod 5 <> 0)%Z
             by (intros Hz; apply Hrem in Hz; discriminate));
      Z.div_mod_to_equations; lia.
Qed.

(** What the callback of the filter tests, at the position [i]. *)
Lemma sample_kept_iff (len : Z) (i : nat) :
  ((0 + Z.of_nat i =? 0)%Z || rem_is_zero (0 + Z.of_nat i + 1) 5
   || (0 + Z.of_nat i =? len - 1)%Z) = true
  <-> (i = 0%nat \/ ((Z.of_nat i + 1) mod 5 = 0)%Z
       \/ Z.of_nat i = (len - 1)%Z).
Proof.
  pose proof (rem_is_zero_5 (0 + Z.of_nat i + 1)) as Hrem.
  replace (0 + Z.of_nat i + 1)%Z with (Z.of_nat i + 1)%Z in * by lia.
  rewrite !orb_true_iff, !Z.eqb_eq, Hrem by lia. lia.
Qed.

(** The chart plots a series of at most ten records whole; of a longer
    one it plots exactly the records at the first position, at every
    fifth position and at the last position.  Either way it keeps the
    first and the last record, and never plots more than
    max(10, length / 5 + 2) points. *)
Theorem sampledData_endpoints_and_size (data : list YearlyData)
    (d0 : YearlyData) :
  ((Array_length data <= 10)%Z -> sampledData data = data) /\
  ((10 < Array_length data)%Z ->
   forall d : YearlyData,
     In d (sampledData data) <->
     exists i : nat,
       nth_error data i = Some d /\
       (i = 0%nat \/ ((Z.of_nat i + 1) mod 5 = 0)%Z
        \/ Z.of_nat i = (Array_length data - 1)%Z)) /\
  hd d0 (sampledData data) = hd d0 data /\
  last (sampledData data) d0 = last data d0 /\
  (Array_length (sampledData data)
   <= Z.max 10 (Array_length data / 5 + 2))%Z.
Proof.
  unfold sampledData.
  destruct (Z.ltb_spec 10 (Array_length data)) as [Hlong | Hshort];
    [| repeat split; lia].
  unfold Array_filter. split; [lia |]. split; [| split; [| split]].
  - intros _ d. rewrite In_Array_filter_from.
    split; intros (i & Hi & Hc); exists i; (split; [exact Hi |]);
      apply sample_kept_iff; exact Hc.
  - destruct data as [| x rest]; [reflexivity |]. reflexivity.
  - destruct (exists_last (l := data)) as (front & x & ->).
    { intros ->. cbn in Hlong. lia. }
    rewrite Array_filter_from_app. cbn [Array_filter_from].
    unfold Array_length. rewrite length_app. cbn [length].
    replace (0 + Z.of_nat (length front)
             =? Z.of_nat (length front + 1) - 1)%Z with true
      by (symmetry; apply Z.eqb_eq; lia).
    rewrite !orb_true_r, !last_last. reflexivity.
  - pose proof (sampled_count (Array_length data - 1) data 0 (Z.le_refl 0))
      as H.
    unfold Array_length in *. cbn [Z.eqb] in H.
    destruct (0 <=? Z.of_nat (length data) - 1)%Z;
      replace (0 + Z.of_nat (length data))%Z with (Z.of_nat (length data))
        in H by lia;
      Z.div_mod_to_equations; lia.
Qed.

(** For the yearlyData of a projection: a record is plotted exactly when
    the series has at most ten years, or the record is that of year 1, of
    a year divisible by 5, or of the last year. *)
Theorem sampledData_of_projection (params : SimulationParams) :
  (1 <= years params)%Z ->
  exists res,
    calculateInvestment params = Some res /\
    forall d : YearlyData,
      In d (sampledData (yearlyData res)) <->
      In d (yearlyData res) /\
      ((years params <= 10)%Z \/ year d = 1%Z \/ (year d mod 5 = 0)%Z
       \/ year d = years params).
Proof.
  intros Hy. returned_result params Hy.
  set (m := monthlyAmount params). set (r := monthlyReturnOf params).
  set (k := Nat.pred (Z.to_nat (years params))).
  assert (Array_length (yearlyData (resultAfter m r k)) = years params) as Hlen.
  { unfold Array_length. cbn [yearlyData resultAfter].
    rewrite length_map, length_seq. apply passes_of_years, Hy. }
  intros d. unfold sampledData. rewrite Hlen.
  destruct (Z.ltb_spec 10 (years params)) as [Hlong | Hshort].
  - unfold Array_filter. rewrite In_Array_filter_from. split.
    + intros (i & Hi & Hc). split; [eapply nth_error_In; exact Hi |].
      right. apply yearlyData_nth in Hi. destruct Hi as [_ ->].
      cbn [year entryAt].
      apply orb_true_iff in Hc. destruct Hc as [Hc | Hc];
        [apply orb_true_iff in Hc; destruct Hc as [Hc | Hc] |].
      * apply Z.eqb_eq in Hc. left. lia.
      * apply rem_is_zero_5 in Hc; [| lia]. right; left.
        replace (Z.of_nat (S i)) with (0 + Z.of_nat i + 1)%Z by lia.
        exact Hc.
      * apply Z.eqb_eq in Hc. right; right. lia.
    + intros [Hin Hcond]. apply In_nth_error in Hin.
      destruct Hin as [i Hi]. exists i. split; [exact Hi |].
      apply yearlyData_nth in Hi. destruct Hi as [_ ->].
      cbn [year entryAt] in Hcond.
      destruct Hcond as [Hc | [Hc | [Hc | Hc]]]; [lia | | |].
      * replace (0 + Z.of_nat i =? 0)%Z with true
          by (symmetry; apply Z.eqb_eq; lia).
        reflexivity.
      * assert (rem_is_zero (0 + Z.of_nat i + 1) 5 = true) as ->.
        { apply rem_is_zero_5; [lia |].
          replace (0 + Z.of_nat i + 1)%Z with (Z.of_nat (S i)) by lia.
          exact Hc. }
        rewrite orb_true_r. reflexivity.
      * replace (0 + Z.of_nat i =? years params - 1)%Z with true
          by (symmetry; apply Z.eqb_eq; lia).
        rewrite orb_true_r. reflexivity.
  - split; [intros H; split; [exact H | left; lia] | intros [H _]; exact H].
Qed.

Lemma sampledData_of_projection_witness :
  (1 <= years testPositiveReturn)%Z /\
  exists res,
    calculateInvestment testPositiveReturn = Some res /\
    forall d : YearlyData,
      In d (sampledData (yearlyData res)) <->
      In d (yearlyData res) /\
      ((years testPositiveReturn <= 10)%Z \/ year d = 1%Z
       \/ (year d mod 5 = 0)%Z \/ year d = years testPositiveReturn).
Proof.
  split; [vm_compute; discriminate |].
  apply (sampledData_of_projection testPositiveReturn).
  vm_compute; discriminate.
Defined.

(** ** The series of the income trend chart *)

Section TrendLoop.

Variable years_ : Z.
Variables income expense_ sav init : Q.

Let seriesFrom (s : TrendSeries.t) (j p : nat) : TrendSeries.t :=
  {| TrendSeries.labels := TrendSeries.labels s ++ map labelAt (seq j p);
     TrendSeries.incomeData :=
       TrendSeries.incomeData s ++ map (fun _ => income) (seq j p);
     TrendSeries.expenseData :=
       TrendSeries.expenseData s ++ map (fun _ => expense_) (seq j p);
     TrendSeries.savingsData :=
       TrendSeries.savingsData s ++ map (fun _ => sav) (seq j p);
     TrendSeries.assetsData :=
       TrendSeries.assetsData s ++ map (assetsAfter init sav) (seq j p) |}.

Lemma trendLoop_running (fuel : nat) :
  forall (j : nat) (s : TrendSeries.t),
    trendLoop fuel years_ income expense_ sav (Z.of_nat j)
      (assetsAfter init sav j) s
    = seriesFrom s j (Nat.min fuel (Z.to_nat (years_ + 1) - j)).
Proof.
  induction fuel as [| fuel IH]; intros j s.
  - cbn [trendLoop Nat.min]. unfold seriesFrom. cbn [seq map].
    rewrite !app_nil_r. destruct s; reflexivity.
  - cbn [trendLoop].
    destruct (Z.leb_spec (Z.of_nat j) years_) as [Hle | Hgt].
    + replace (Z.of_nat j + 1)%Z with (Z.of_nat (S j)) by lia.
      change (assetsAfter init sav j + sav) with (assetsAfter init sav (S j)).
      rewrite IH.
      replace (Z.to_nat (years_ + 1) - j)%nat
        with (S (Z.to_nat (years_ + 1) - S j)) by lia.
      unfold seriesFrom. cbn [Nat.min seq map TrendSeries.labels
        TrendSeries.incomeData TrendSeries.expenseData
        TrendSeries.savingsData TrendSeries.assetsData].
      rewrite <- !app_assoc. reflexivity.
    + replace (Z.to_nat (years_ + 1) - j)%nat with 0%nat by lia.
      rewrite Nat.min_0_r. unfold seriesFrom. cbn [seq map].
      rewrite !app_nil_r. destruct s; reflexivity.
Qed.

Lemma trendSeries_running :
  trendSeries years_ income expense_ sav init
  = {| TrendSeries.labels := map labelAt (seq 0 (Z.to_nat (years_ + 1)));
       TrendSeries.incomeData :=
         map (fun _ => income) (seq 0 (Z.to_nat (years_ + 1)));
       TrendSeries.expenseData :=
         map (fun _ => expense_) (seq 0 (Z.to_nat (years_ + 1)));
       TrendSeries.savingsData :=
         map (fun _ => sav) (seq 0 (Z.to_nat (years_ + 1)));
       TrendSeries.assetsData :=
         map (assetsAfter init sav) (seq 0 (Z.to_nat (years_ + 1))) |}.
Proof.
  unfold trendSeries.
  rewrite (trendLoop_running (Z.to_nat (years_ + 1)) 0).
  rewrite Nat.sub_0_r, Nat.min_id. reflexivity.
Qed.

End TrendLoop.

Lemma assetsAfter_closed (init sav : Q) (n : nat) :
  assetsAfter init sav n == init + inject_Z (Z.of_nat n) * sav.
Proof.
  induction n as [| n IH]; cbn [assetsAfter].
  - change (inject_Z (Z.of_nat 0)) with 0. ring.
  - rewrite IH, Nat2Z.inj_succ. unfold Z.succ. rewrite inject_Z_plus.
    change (inject_Z 1) with 1. ring.
Qed.

Lemma nth_error_map_seq {B : Type} (f : nat -> B) (n i : nat) (x : B) :
  nth_error (map f (seq 0 n)) i = Some x -> (i < n)%nat /\ x = f i.
Proof.
  intros H.
  assert (i < n)%nat as Hi.
  { assert (nth_error (map f (seq 0 n)) i <> None) as Hn by congruence.
    apply nth_error_Some in Hn. rewrite length_map, length_seq in Hn.
    exact Hn. }
  rewrite nth_error_map, nth_error_seq in H.
  destruct (Nat.ltb_spec i n) as [_ | Hge]; [| lia].
  cbn in H. split; [exact Hi | congruence].
Qed.

Lemma trendSeries_lengths (years_ : Z) (income expense_ sav init : Q) :
  let s := trendSeries years_ income expense_ sav init in
  Array_length (TrendSeries.labels s) = Z.max 0 (years_ + 1) /\
  Array_length (TrendSeries.incomeData s) = Z.max 0 (years_ + 1) /\
  Array_length (TrendSeries.expenseData s) = Z.max 0 (years_ + 1) /\
  Array_length (TrendSeries.savingsData s) = Z.max 0 (years_ + 1) /\
  Array_length (TrendSeries.assetsData s) = Z.max 0 (years_ + 1).
Proof.
  cbv zeta. rewrite trendSeries_running.
  cbn [TrendSeries.labels TrendSeries.incomeData TrendSeries.expenseData
       TrendSeries.savingsData TrendSeries.assetsData].
  unfold Array_length. rewrite !length_map, !length_seq.
  repeat split; lia.
Qed.

(** Before filtering, each of the five arrays holds one entry per year
    from 0 to years (none when years < 0); the asset entry of year y is
    initialAssets + y * annualSavings, its label is the year followed by
    the year sign, and the other three series are constant. *)
Theorem trendSeries_entries (years_ : Z) (income expense_ sav init : Q) :
  let s := trendSeries years_ income expense_ sav init in
  Array_length (TrendSeries.labels s) = Z.max 0 (years_ + 1) /\
  Array_length (TrendSeries.incomeData s) = Z.max 0 (years_ + 1) /\
  Array_length (TrendSeries.expenseData s) = Z.max 0 (years_ + 1) /\
  Array_length (TrendSeries.savingsData s) = Z.max 0 (years_ + 1) /\
  Array_length (TrendSeries.assetsData s) = Z.max 0 (years_ + 1) /\
  forall i : nat,
    (forall a, nth_error (TrendSeries.assetsData s) i = Some a ->
               a == init + inject_Z (Z.of_nat i) * sav) /\
    (forall l, nth_error (TrendSeries.labels s) i = Some l ->
               l = String.append (Number_toString (Z.of_nat i)) "年") /\
    (forall x, nth_error (TrendSeries.incomeData s) i = Some x -> x = income) /\
    (forall x, nth_error (TrendSeries.expenseData s) i = Some x ->
               x = expense_) /\
    (forall x, nth_error (TrendSeries.savingsData s) i = Some x -> x = sav).
Proof.
  cbv zeta. rewrite trendSeries_running.
  cbn [TrendSeries.labels TrendSeries.incomeData TrendSeries.expenseData
       TrendSeries.savingsData TrendSeries.assetsData].
  unfold Array_length. rewrite !length_map, !length_seq.
  repeat (split; [lia |]).
  intros i. repeat split; intros x H; apply nth_error_map_seq in H;
    destruct H as [_ ->]; try reflexivity.
  apply assetsAfter_closed.
Qed.

(** ** The points of the income trend chart *)

Lemma Math_ceil_tenth (y : Z) :
  Math_ceil (inject_Z y / 10) = ((y + 9) / 10)%Z.
Proof.
  unfold Math_ceil, Qceiling.
  assert (- (inject_Z y / 10) == inject_Z (- y) / inject_Z 10) as E.
  { rewrite inject_Z_opp. change (inject_Z 10) with 10. field. }
  rewrite (Qfloor_comp _ _ E), <- Zdiv_Qdiv.
  Z.div_mod_to_equations. lia.
Qed.

Lemma keepPoint_short {A : Type} (years_ : Z) (x : A) (i : Z) :
  (1 <= years_ <= 10)%Z -> keepPoint years_ x i = true.
Proof.
  intros H. unfold keepPoint. rewrite Math_ceil_tenth.
  replace ((years_ + 9) / 10)%Z with 1%Z
    by (Z.div_mod_to_equations; lia).
  unfold rem_is_zero, Number_rem. cbn [Z.eqb]. rewrite Z.rem_1_r. reflexivity.
Qed.

Lemma keepPoint_last {A : Type} (years_ : Z) (x : A) :
  keepPoint years_ x years_ = true.
Proof. unfold keepPoint. rewrite Z.eqb_refl. apply orb_true_r. Qed.

Lemma keepPoint_first {A : Type} (years_ : Z) (x : A) :
  (0 <= years_)%Z -> keepPoint years_ x 0 = true.
Proof.
  intros H. unfold keepPoint. rewrite Math_ceil_tenth.
  unfold rem_is_zero, Number_rem.
  destruct (Z.eqb_spec ((years_ + 9) / 10) 0) as [E | E].
  - assert (years_ = 0)%Z as -> by (Z.div_mod_to_equations; lia).
    reflexivity.
  - rewrite Z.rem_0_l by exact E. reflexivity.
Qed.

Lemma Array_filter_keepPoint_short {A : Type} (years_ : Z) (a : list A) :
  (years_ <= 10)%Z ->
  Array_length a = Z.max 0 (years_ + 1) ->
  Array_filter (keepPoint years_) a = a.
Proof.
  intros Hy Hlen. unfold Array_filter. apply Array_filter_from_all.
  intros i x Hi.
  assert (i < length a)%nat as Hlt by (apply nth_error_Some; congruence).
  unfold Array_length in Hlen.
  destruct (Z.lt_ge_cases years_ 1) as [Hsmall | Hbig].
  - assert (years_ = 0%Z /\ i = 0%nat) as [-> ->] by lia.
    apply keepPoint_last.
  - apply keepPoint_short. lia.
Qed.

(** For years <= 10 every point of every series is plotted; this includes
    years = 0, where the step Math.ceil(years / 10) is 0, the remainder is
    NaN, and the single point is kept by the test i === years. *)
Theorem trendChartData_short_horizon (years_ : Z)
    (income expense_ sav init : Q) :
  (years_ <= 10)%Z ->
  trendChartData years_ income expense_ sav init
  = trendSeries years_ income expense_ sav init.
Proof.
  intros Hy. unfold trendChartData.
  destruct (trendSeries_lengths years_ income expense_ sav init)
    as (Hl & Hi & He & Hs & Ha).
  rewrite !Array_filter_keepPoint_short by assumption.
  destruct (trendSeries years_ income expense_ sav init). reflexivity.
Qed.

Lemma trendChartData_short_horizon_witness :
  (0 <= 10)%Z /\
  trendChartData 0 440 240 200 1000 = trendSeries 0 440 240 200 1000 /\
  TrendSeries.assetsData (trendChartData 0 440 240 200 1000) = [1000].
Proof.
  split; [lia |].
  pose proof (trendChartData_short_horizon 0 440 240 200 1000) as H.
  split; [apply H; lia |]. rewrite H by lia. reflexivity.
Defined.

Lemma trendChartData_ends (years_ : Z) (income expense_ sav init : Q) :
  (0 <= years_)%Z ->
  let c := trendChartData years_ income expense_ sav init in
  hd 0 (TrendSeries.assetsData c) = init /\
  last (TrendSeries.assetsData c) 0 == init + inject_Z years_ * sav.
Proof.
  intros Hy. cbv zeta. unfold trendChartData.
  rewrite trendSeries_running.
  cbn [TrendSeries.assetsData]. unfold Array_filter.
  replace (Z.to_nat (years_ + 1)) with (S (Z.to_nat years_)) by lia.
  split.
  - cbn [seq map Array_filter_from]. rewrite keepPoint_first by exact Hy.
    reflexivity.
  - rewrite seq_S, map_app, Array_filter_from_app. cbn [map Array_filter_from].
    rewrite length_map, length_seq.
    replace (0 + Z.of_nat (Z.to_nat years_))%Z with years_ by lia.
    rewrite keepPoint_last, last_last.
    rewrite assetsAfter_closed.
    replace (Z.of_nat (0 + Z.to_nat years_)) with years_ by lia.
    reflexivity.
Qed.

(** For years >= 0 the five plotted arrays have the same length, the
    first plotted asset is initialAssets and the last plotted asset is
    initialAssets + years * annualSavings. *)
Theorem trendChartData_aligned (years_ : Z) (income expense_ sav init : Q) :
  (0 <= years_)%Z ->
  let c := trendChartData years_ income expense_ sav init in
  length (TrendSeries.labels c) = length (TrendSeries.assetsData c) /\
  length (TrendSeries.incomeData c) = length (TrendSeries.assetsData c) /\
  length (TrendSeries.expenseData c) = length (TrendSeries.assetsData c) /\
  length (TrendSeries.savingsData c) = length (TrendSeries.assetsData c) /\
  hd 0 (TrendSeries.assetsData c) = init /\
  last (TrendSeries.assetsData c) 0 == init + inject_Z years_ * sav.
Proof.
  intros Hy. cbv zeta.
  pose proof (trendChartData_ends years_ income expense_ sav init Hy) as Hends.
  cbv zeta in Hends. revert Hends.
  unfold trendChartData. rewrite trendSeries_running.
  cbn [TrendSeries.labels TrendSeries.incomeData TrendSeries.expenseData
       TrendSeries.savingsData TrendSeries.assetsData].
  unfold Array_filter. intros Hends.
  set (n := Z.to_nat (years_ + 1)) in *.
  assert (forall (B : Type) (f : nat -> B),
            length (Array_filter_from (keepPoint years_) 0 (map f (seq 0 n)))
            = length (Array_filter_from (keepPoint years_) 0
                        (map (assetsAfter init sav) (seq 0 n)))) as Hsame.
  { intros B f.
    apply (Array_filter_from_index_only
             (fun i => rem_is_zero i (Math_ceil (inject_Z years_ / 10))
                       || (i =? years_)%Z)).
    rewrite !length_map. reflexivity. }
  repeat (split; [apply Hsame |]). exact Hends.
Qed.

Lemma trendChartData_aligned_witness :
  (0 <= 30)%Z /\
  hd 0 (TrendSeries.assetsData (trendChartData 30 440 240 200 1000)) = 1000 /\
  last (TrendSeries.assetsData (trendChartData 30 440 240 200 1000)) 0
  == 1000 + inject_Z 30 * 200.
Proof.
  split; [lia |].
  destruct (trendChartData_aligned 30 440 240 200 1000)
    as (_ & _ & _ & _ & Hhd & Hlast); [lia |].
  split; assumption.
Defined.

(** On the income screen the last point of the asset curve is the account
    balances plus the total savings shown above the chart. *)
Theorem IncomeScreen_chart_ends_at_totalSavings
    (monthlySalary monthlyExpense bonus : Q) (years_ : Z)
    (personalAccounts corporateAccounts : list BankAccount.t) :
  (0 <= years_)%Z ->
  last (TrendSeries.assetsData
          (IncomeScreen.chartData monthlySalary monthlyExpense bonus years_
             personalAccounts corporateAccounts)) 0
  == IncomeScreen.initialAssets personalAccounts corporateAccounts
     + IncomeScreen.totalSavings monthlySalary monthlyExpense bonus years_.
Proof.
  intros Hy. unfold IncomeScreen.chartData.
  destruct (trendChartData_ends years_
              (IncomeScreen.annualNetIncome monthlySalary bonus)
              (IncomeScreen.annualExpense monthlyExpense)
              (IncomeScreen.annualSavings monthlySalary monthlyExpense bonus)
              (IncomeScreen.initialAssets personalAccounts corporateAccounts)
              Hy) as (_ & ->).
  unfold IncomeScreen.totalSavings.
  assert (0 <= inject_Z years_) as Hq.
  { change 0 with (inject_Z 0). rewrite <- Zle_Qle. exact Hy. }
  rewrite (calculateSavings_scale
             (IncomeScreen.grossIncome monthlySalary) bonus monthlyExpense
             _ Hq).
  unfold IncomeScreen.annualSavings, IncomeScreen.annualNetIncome,
    IncomeScreen.annualExpense, IncomeScreen.netIncome.
  ring.
Qed.

Lemma IncomeScreen_chart_ends_at_totalSavings_witness :
  (0 <= 10)%Z /\
  last (TrendSeries.assetsData (IncomeScreen.chartData 30 20 80 10 [] [])) 0
  == IncomeScreen.initialAssets [] [] + IncomeScreen.totalSavings 30 20 80 10.
Proof.
  split; [lia |].
  apply (IncomeScreen_chart_ends_at_totalSavings 30 20 80 10 [] []). lia.
Defined.

(** ** Sums over the account and expense lists *)

Lemma Array_reduce_sum {A : Type} (f : A -> Q) (a : list A) :
  forall init,
    Array_reduce (fun sum x => sum + f x) init a == init + sumOf f a.
Proof.
  unfold Array_reduce.
  induction a as [| x a IH]; intros init; cbn [fold_left sumOf].
  - ring.
  - rewrite IH. ring.
Qed.

Lemma totalBalance_sum (accounts : list BankAccount.t) :
  totalBalance accounts == sumOf BankAccount.currentBalance accounts.
Proof. unfold totalBalance. rewrite Array_reduce_sum. ring. Qed.

Lemma sumOf_app {A : Type} (f : A -> Q) (a a' : list A) :
  sumOf f (a ++ a') == sumOf f a + sumOf f a'.
Proof.
  induction a as [| x a IH]; cbn [app sumOf].
  - ring.
  - rewrite IH. ring.
Qed.

Lemma sumOf_partition {A : Type} (f : A -> Q) (keep : A -> bool) (a : list A) :
  sumOf f a
  == sumOf f (filter (fun x => negb (keep x)) a) + sumOf f (filter keep a).
Proof.
  induction a as [| x a IH]; cbn [filter sumOf].
  - ring.
  - destruct (keep x); cbn [negb sumOf]; rewrite IH; ring.
Qed.

Lemma sumOf_scale {A : Type} (f g : A -> Q) (c : Q) (a : list A) :
  (forall x, g x == c * f x) -> sumOf g a == c * sumOf f a.
Proof.
  intros H. induction a as [| x a IH]; cbn [sumOf].
  - ring.
  - rewrite IH, H. ring.
Qed.

(** ** The account handlers *)

(** Deleting by id keeps exactly the accounts with another id, in their
    order; it changes nothing when no account has the id; and the total
    balance it removes is that of the accounts that had the id. *)
Theorem handleDeletePersonalAccount_removes_id (id : String.string)
    (accounts : list BankAccount.t) :
  (forall a,
     In a (IncomeScreen.handleDeletePersonalAccount id accounts) <->
     In a accounts /\ BankAccount.id a <> id) /\
  ((forall a, In a accounts -> BankAccount.id a <> id) ->
   IncomeScreen.handleDeletePersonalAccount id accounts = accounts) /\
  totalBalance accounts
  == totalBalance (IncomeScreen.handleDeletePersonalAccount id accounts)
     + totalBalance
         (filter (fun a => String.eqb (BankAccount.id a) id) accounts).
Proof.
  unfold IncomeScreen.handleDeletePersonalAccount. split; [| split].
  - intros a. rewrite filter_In, negb_true_iff, String.eqb_neq. reflexivity.
  - intros Hfresh. apply forallb_filter_id. apply forallb_forall.
    intros a Ha. apply negb_true_iff, String.eqb_neq, Hfresh, Ha.
  - rewrite !totalBalance_sum.
    apply (sumOf_partition BankAccount.currentBalance
             (fun a => String.eqb (BankAccount.id a) id)).
Qed.

(** Editing replaces every account that has the edited account's id and
    leaves the ids, their order and the number of accounts as they were;
    when no account has that id nothing changes. *)
Theorem handleEditPersonalAccount_replaces (account : BankAccount.t)
    (accounts : list BankAccount.t) :
  map BankAccount.id (IncomeScreen.handleEditPersonalAccount account accounts)
  = map BankAccount.id accounts /\
  (forall (i : nat) (a : BankAccount.t),
     nth_error accounts i = Some a ->
     nth_error (IncomeScreen.handleEditPersonalAccount account accounts) i
     = Some (if String.eqb (BankAccount.id a) (BankAccount.id account)
             then account else a)) /\
  ((forall a, In a accounts -> BankAccount.id a <> BankAccount.id account) ->
   IncomeScreen.handleEditPersonalAccount account accounts = accounts).
Proof.
  unfold IncomeScreen.handleEditPersonalAccount. split; [| split].
  - rewrite map_map. apply map_ext. intros a.
    destruct (String.eqb_spec (BankAccount.id a) (BankAccount.id account))
      as [E | _]; [symmetry; exact E | reflexivity].
  - intros i a Hi. rewrite nth_error_map, Hi. reflexivity.
  - intros Hfresh. rewrite <- (map_id accounts) at 2.
    apply map_ext_in. intros a Ha.
    destruct (String.eqb_spec (BankAccount.id a) (BankAccount.id account))
      as [E | _]; [| reflexivity].
    exfalso. exact (Hfresh a Ha E).
Qed.

(** Adding appends one account with the given id and raises the total
    balance by its balance; deleting that id afterwards gives what
    deleting it from the original list gives, which is the original list
    when the id was new. *)
Theorem handleAddPersonalAccount_then_delete (now : String.string)
    (account : BankAccount.withoutId) (accounts : list BankAccount.t) :
  totalBalance (IncomeScreen.handleAddPersonalAccount now account accounts)
  == totalBalance accounts + BankAccount.newCurrentBalance account /\
  IncomeScreen.handleDeletePersonalAccount now
    (IncomeScreen.handleAddPersonalAccount now account accounts)
  = IncomeScreen.handleDeletePersonalAccount now accounts /\
  ((forall a, In a accounts -> BankAccount.id a <> now) ->
   IncomeScreen.handleDeletePersonalAccount now
     (IncomeScreen.handleAddPersonalAccount now account accounts)
   = accounts).
Proof.
  unfold IncomeScreen.handleAddPersonalAccount,
    IncomeScreen.handleDeletePersonalAccount.
  assert (forall l : list BankAccount.t,
            filter (fun a => negb (String.eqb (BankAccount.id a) now))
              (l ++ [ {| BankAccount.id := now;
                         BankAccount.bankName := BankAccount.newBankName account;
                         BankAccount.currentBalance :=
                           BankAccount.newCurrentBalance account;
                         BankAccount.expectedDeposit :=
                           BankAccount.newExpectedDeposit account |} ])
            = filter (fun a => negb (String.eqb (BankAccount.id a) now)) l)
    as Hdel.
  { intros l. rewrite filter_app. cbn [filter BankAccount.id].
    rewrite String.eqb_refl. cbn [negb]. apply app_nil_r. }
  split; [| split].
  - rewrite !totalBalance_sum, sumOf_app. cbn [sumOf BankAccount.currentBalance].
    ring.
  - apply Hdel.
  - intros Hfresh. rewrite Hdel. apply forallb_filter_id. apply forallb_forall.
    intros a Ha. apply negb_true_iff, String.eqb_neq, Hfresh, Ha.
Qed.

(** ** The expense totals *)

(** The yearly total shown on the expense screen is twelve times the
    monthly total, whatever the monthly and annual items are. *)
Theorem totalAnnualExpense_is_twelve_months
    (monthlyExpenses annualExpenses : list ExpenseItem.t) :
  totalAnnualExpense monthlyExpenses annualExpenses
  == 12 * totalMonthlyExpense monthlyExpenses annualExpenses.
Proof.
  unfold totalAnnualExpense, totalMonthlyExpense.
  rewrite !Array_reduce_sum.
  rewrite (sumOf_scale ExpenseItem.amount
             (fun item => ExpenseItem.amount item * 12) 12 monthlyExpenses)
    by (intros x; ring).
  rewrite (sumOf_scale (fun item => ExpenseItem.amount item / 12)
             ExpenseItem.amount 12 annualExpenses)
    by (intros x; field).
  ring.
Qed.

(** * Part VI: where binary64 rounding shows

    The theorems above are proved in exact arithmetic.  Their statements
    are kept to what the binary64 program satisfies as well: whole
    amounts, returns that do not take the total below the principal, size
    conditions, and tolerances of one unit.  The runs below are the
    reason for each of those restrictions: the inputs on which the
    rounding of binary64 shows in a reported integer, through [Binary64]
    and, where it says something, through the exact definitions. *)

Module Binary64Runs.

Import PrimFloat.
Set Warnings "-inexact-float".

(** The summary of an exact run, from the running values alone. *)
Lemma exact_summary (params : SimulationParams) (f p e : Q) :
  (1 <=? years params)%Z = true ->
  Qeq_bool
    (Math_round
       (totalAfter (monthlyAmount params) (monthlyReturnOf params)
          (Z.to_nat (years params)))) f = true ->
  Qeq_bool
    (Math_round (principalAfter (monthlyAmount params) (Z.to_nat (years params))))
    p = true ->
  Qeq_bool
    (Math_round
       (totalAfter (monthlyAmount params) (monthlyReturnOf params)
          (Z.to_nat (years params))
        - principalAfter (monthlyAmount params) (Z.to_nat (years params))))
    e = true ->
  exists res,
    calculateInvestment params = Some res /\
    finalAmount res == f /\ totalPrincipal res == p /\ totalEarnings res == e.
Proof.
  intros Hy Hf Hp He. apply Z.leb_le in Hy.
  apply Qeq_bool_iff in Hf, Hp, He.
  rewrite (calculateInvestment_returns params Hy).
  eexists. split; [reflexivity |].
  destruct (resultAfter_fields (monthlyAmount params) (monthlyReturnOf params)
              (Nat.pred (Z.to_nat (years params)))) as (-> & -> & ->).
  replace (S (Nat.pred (Z.to_nat (years params))))
    with (Z.to_nat (years params)) by lia.
  repeat split; assumption.
Qed.

Lemma summaryAgrees_sound (params : SimulationParams) :
  summaryAgrees params = true ->
  exists res res',
    Binary64.calculateInvestment (toBinary64 params) = Some res /\
    calculateInvestment params = Some res' /\
    sameSummary res res' = true.
Proof.
  unfold summaryAgrees. cbv zeta.
  destruct (Binary64.calculateInvestment (toBinary64 params)) as [res |];
    [| discriminate].
  intros H. rewrite <- !andb_assoc in H.
  apply andb_true_iff in H. destruct H as [Hy H].
  apply Z.leb_le in Hy.
  exists res. eexists. split; [reflexivity |].
  split; [apply calculateInvestment_returns, Hy |].
  unfold sameSummary.
  destruct (resultAfter_fields (monthlyAmount params) (monthlyReturnOf params)
              (Nat.pred (Z.to_nat (years params)))) as (-> & -> & ->).
  replace (S (Nat.pred (Z.to_nat (years params))))
    with (Z.to_nat (years params)) by lia.
  rewrite <- andb_assoc. exact H.
Qed.

(** On the projections the repository's tests run over at most ten years
    the two readings report the same finalAmount, totalPrincipal and
    totalEarnings. *)
Lemma Binary64_same_on_tests :
  Forall
    (fun params =>
       exists res res',
         Binary64.calculateInvestment (toBinary64 params) = Some res /\
         calculateInvestment params = Some res' /\
         sameSummary res res' = true)
    testedParams.
Proof.
  apply Forall_forall. intros params Hin. apply summaryAgrees_sound.
  revert params Hin. apply forallb_forall. vm_compute. reflexivity.
Qed.

(** A whole amount and a negative return: the binary64 summary does not
    add up, finalAmount being one less than totalPrincipal +
    totalEarnings.  The total lies below the principal, and the
    difference currentTotal - currentPrincipal is rounded before
    Math.round sees it. *)
Lemma Binary64_summary_off_by_one :
  exists res,
    Binary64.calculateInvestment
      (Binary64.simpleParams 1000000143 27 (-20)) = Some res /\
    Binary64.finalAmount res = 58745384797%float /\
    Binary64.totalPrincipal res = 324000046332%float /\
    Binary64.totalEarnings res = (-265254661534)%float /\
    (Binary64.totalPrincipal res + Binary64.totalEarnings res
     = 58745384798)%float.
Proof.
  eexists. split; [vm_compute; reflexivity |]. repeat split; reflexivity.
Qed.

(** A fractional amount and no return: in binary64 the principal, summed
    year by year, and the total, summed month by month, round apart, in
    either direction. *)
Lemma Binary64_fractional_amount_zero_return :
  (exists res,
     Binary64.calculateInvestment (Binary64.simpleParams 0.025 5 0)
     = Some res /\
     Binary64.finalAmount res = 1%float /\
     Binary64.totalPrincipal res = 2%float) /\
  (exists res,
     Binary64.calculateInvestment (Binary64.simpleParams 0.085 25 0)
     = Some res /\
     Binary64.finalAmount res = 26%float /\
     Binary64.totalPrincipal res = 25%float).
Proof.
  split; (eexists; split; [vm_compute; reflexivity |]); repeat split;
    reflexivity.
Qed.

(** Year 3 of 42545000 a month at 3 %: the unrounded yearly earnings are
    within a rounding error of a tie, and the two readings record
    neighbouring integers. *)
Lemma Binary64_yearlyEarnings_near_tie :
  (exists res d,
     Binary64.calculateInvestment (Binary64.simpleParams 42545000 3 3)
     = Some res /\
     nth_error (Binary64.yearlyData res) 2 = Some d /\
     Binary64.yearlyEarnings d = 40419322%float) /\
  (exists res d,
     calculateInvestment (simpleParams 42545000 3 3) = Some res /\
     nth_error (yearlyData res) 2 = Some d /\
     yearlyEarnings d == 40419323).
Proof.
  split; (eexists; eexists; split; [vm_compute; reflexivity |]);
    repeat split; reflexivity.
Qed.

(** The total itself can end on the other side of a tie.  One year of
    940184187 a month at 6.5 %: twelve rounded steps give a finalAmount
    of 11687435333, the exact steps 11687435334.  The same happens within
    the ranges of the sliders after more steps: 325000 a month over 43
    years at 7.5 % gives 1250692412, one more than the rounding of the
    annuity formula. *)
Lemma Binary64_annuity_near_tie :
  (exists res,
     Binary64.calculateInvestment (Binary64.simpleParams 940184187 1 6.5)
     = Some res /\
     Binary64.finalAmount res = 11687435333%float) /\
  (exists res,
     calculateInvestment (simpleParams 940184187 1 (65 # 10)) = Some res /\
     finalAmount res == 11687435334 /\
     totalPrincipal res == 11282210244 /\
     totalEarnings res == 405225090) /\
  (exists res,
     Binary64.calculateInvestment (Binary64.simpleParams 325000 43 7.5)
     = Some res /\
     Binary64.finalAmount res = 1250692412%float).
Proof.
  split; [| split].
  - eexists. split; [vm_compute; reflexivity |]. reflexivity.
  - apply exact_summary; vm_compute; reflexivity.
  - eexists. split; [vm_compute; reflexivity |]. reflexivity.
Qed.

(** A gross income of 288, a bonus of 250 and monthly expenses of 17: the
    savings are 276 of 480, exactly 57.5 %.  The binary64 quotient times
    100 is 57.49999999999999 and rounds to 57; the exact percentage is a
    tie and rounds to 58. *)
Lemma Binary64_savingsRate_tie :
  Binary64.calculateSavingsRate 288 250 17 = 57%float /\
  calculateSavingsRate 288 250 17 = Some 58 /\
  savingsPercent 288 250 17 == 575 # 10 /\
  isTie (savingsPercent 288 250 17) = true.
Proof. repeat split; vm_compute; reflexivity. Qed.

End Binary64Runs.
